(** * ads-papers-rsaa.py: affiliation matching, record filtering and digest
    formatting, embedded in Rocq.

    Python strings are modelled as [String.string] over 8-bit [ascii];
    [str.lower], [str.upper] and [str.strip] act on the characters they act
    on in the range 0..255 (only ASCII letters change case). *)

From Stdlib Require Import String Ascii List Bool Arith Lia ZArith.
From Stdlib Require Import Permutation Sorting.Sorted.
From Stdlib Require Import Numbers.DecimalString Numbers.DecimalZ.
Import ListNotations.
Open Scope list_scope.
Open Scope string_scope.

(* ------------------------------------------------------------------ *)
(** ** Python string primitives *)

Module Py.

(** [sub in s] *)
Fixpoint contains (sub s : string) : bool :=
  prefix sub s ||
  match s with
  | EmptyString => false
  | String _ r => contains sub r
  end.

(** [s[n:]] *)
Fixpoint drop (n : nat) (s : string) : string :=
  match n, s with
  | O, _ => s
  | S _, EmptyString => EmptyString
  | S k, String _ r => drop k r
  end.

(** [s.replace(old, new)] for a non-empty [old]: scan left to right and
    replace non-overlapping occurrences.  Each step consumes at least one
    character, so [length s] steps are enough. *)
Fixpoint replace_fuel (fuel : nat) (old new s : string) : string :=
  match fuel with
  | O => s
  | S f =>
      match s with
      | EmptyString => EmptyString
      | String c r =>
          if prefix old s
          then new ++ replace_fuel f old new (drop (String.length old) s)
          else String c (replace_fuel f old new r)
      end
  end.

(** [s.replace("", new)] inserts [new] around every character. *)
Fixpoint replace_empty (new s : string) : string :=
  match s with
  | EmptyString => new
  | String c r => new ++ String c (replace_empty new r)
  end.

Definition replace (old new s : string) : string :=
  match old with
  | EmptyString => replace_empty new s
  | _ => replace_fuel (String.length s) old new s
  end.

(** [s.split(sep)] for a one-character separator; [""].split(";") is [[""]]. *)
Fixpoint split_char (sep : ascii) (s : string) : list string :=
  match s with
  | EmptyString => [EmptyString]
  | String c r =>
      let rest := split_char sep r in
      if Ascii.eqb c sep then EmptyString :: rest
      else match rest with
           | h :: t => String c h :: t
           | [] => [String c EmptyString]
           end
  end.

Definition map_chars (f : ascii -> ascii) : string -> string :=
  fix go s := match s with
              | EmptyString => EmptyString
              | String c r => String (f c) (go r)
              end.

(** [str.lower] on code points 0..255: A..Z and the Latin-1 capitals
    \xc0..\xde (but the multiplication sign \xd7) move up by 32. *)
Definition lower_char (c : ascii) : ascii :=
  let n := nat_of_ascii c in
  if (((65 <=? n) && (n <=? 90)) || ((192 <=? n) && (n <=? 222) && negb (n =? 215)))%nat
  then ascii_of_nat (n + 32)%nat else c.

(** [str.upper] on a..z.  Python also upper-cases the Latin-1 small
    letters, and sends \xdf to ["SS"] and \xb5, \xff outside 0..255; the
    properties below apply [upper] to ASCII text only. *)

Definition upper_char (c : ascii) : ascii :=
  let n := nat_of_ascii c in
  if ((97 <=? n) && (n <=? 122))%nat then ascii_of_nat (n - 32)%nat else c.

(** [s.lower()], [s.upper()] (see [upper_char] for the range of [upper]) *)
Definition lower : string -> string := map_chars lower_char.
Definition upper : string -> string := map_chars upper_char.

(** [str.isspace] on code points 0..255: \t \n \v \f \r, \x1c..\x1f,
    space, \x85 and \xa0. *)
Definition is_space (c : ascii) : bool :=
  let n := nat_of_ascii c in
  (((9 <=? n) && (n <=? 13)) || ((28 <=? n) && (n <=? 32)) ||
   (n =? 133) || (n =? 160))%nat.

Fixpoint lstrip (s : string) : string :=
  match s with
  | EmptyString => EmptyString
  | String c r => if is_space c then lstrip r else s
  end.

Definition rstrip (s : string) : string :=
  string_of_list_ascii
    (rev (list_ascii_of_string (lstrip
      (string_of_list_ascii (rev (list_ascii_of_string s)))))).

(** [s.strip()] *)
Definition strip (s : string) : string := rstrip (lstrip s).

(** [sep.join(xs)] *)
Definition join (sep : string) (xs : list string) : string :=
  String.concat sep xs.

(** [str(n)] for a non-negative integer. *)
Definition str_nat (n : nat) : string :=
  NilEmpty.string_of_uint (Nat.to_uint n).

End Py.

(* ------------------------------------------------------------------ *)
(** ** Affiliation matcher (lines 24-53) *)

(** [strip_affiliations(aff)]:
    [aff = aff.replace("&amp;", "&")] then
    [[ea.replace(",", "").replace(":", "").lower().strip() for ea in aff.split(";")]] *)
Definition strip_affiliations (aff : string) : list string :=
  let aff := Py.replace "&amp;" "&" aff in
  map (fun ea => Py.strip (Py.lower (Py.replace ":" "" (Py.replace "," "" ea))))
      (Py.split_char ";"%char aff).

(** The loop [for j, sa in enumerate(stripped_affiliations)]. *)
Fixpoint matching_loop (j : nat) (author aff : string) (sas : list string)
  : option (nat * string * string) :=
  match sas with
  | [] => None
  | sa :: rest =>
      if Py.contains "astronomy" sa && Py.contains "2611" sa
      then Some (j, author, aff)
      else matching_loop (S j) author aff rest
  end.

(** [matching_author(author, aff)]: [(True, [j, author, aff])] is
    [Some (j, author, aff)], [(False, [])] is [None]. *)
Definition matching_author (author aff : string) : option (nat * string * string) :=
  matching_loop 0 author aff (strip_affiliations aff).

Definition is_matching_author (author aff : string) : bool :=
  match matching_author author aff with Some _ => true | None => false end.

(** [format_author(author, aff)]: [f"*{author.upper()}*"] when matching. *)
Definition format_author (author aff : string) : string :=
  if is_matching_author author aff then "*" ++ Py.upper author ++ "*" else author.

(* ------------------------------------------------------------------ *)
(** ** Articles and Python exceptions *)

(** The fields of an [ads.Article] the script reads.  Fields the search
    result may lack are [option]s ([None] in Python); [page] is a list whose
    entries may themselves be [None].  [aid] is [int(article.id)]. *)
Record article := mk_article {
  aid : Z;
  author : list string;
  aff : list string;
  title : list string;
  bibcode : string;
  pub : string;
  volume : option string;
  issue : option string;
  page : option (list (option string));
  pubdate : string
}.

(** The exceptions the modelled code can raise.  [ReadError] stands for
    whatever [Table.read] raises on a file it cannot parse or decode. *)
Inductive py_exn :=
| IndexError
| ValueError
| OverflowError
| ReadError (msg : string)
| QueryError (msg : string).

Inductive result (A : Type) :=
| Ok (a : A)
| Raise (e : py_exn).
Arguments Ok {A} a.
Arguments Raise {A} e.

(** [enumerate(xs)] *)
Definition enumerate {A} (xs : list A) : list (nat * A) :=
  combine (seq 0 (List.length xs)) xs.

(* ------------------------------------------------------------------ *)
(** ** Summary formatter (lines 72-126) *)

(** One iteration of [for j, (author, aff) in enumerate(zip(article.author,
    article.aff))] in the long-list branch; the state is
    [(skip, total_skip, authors)]. *)
Definition long_step (st : nat * nat * list string) (x : nat * (string * string))
  : nat * nat * list string :=
  let '(skip, total_skip, authors) := st in
  let '(j, (au, af)) := x in
  if (j <? 1)%nat then (skip, total_skip, authors ++ [format_author au af])%list
  else
    match matching_author au af with
    | Some _ =>
        let '(skip, authors) :=
          if (0 <? skip)%nat then (0%nat, (authors ++ ["..."])%list) else (skip, authors) in
        (skip, total_skip, authors ++ [format_author au af])%list
    | None => (S skip, S total_skip, authors)
    end.

Definition long_loop (a : article) : nat * nat * list string :=
  fold_left long_step (enumerate (combine (author a) (aff a))) (0%nat, 0%nat, []).

(** The [authors] list after the loop and the [if skip > 0: authors.append("et al.")]
    step, together with [total_skip]. *)
Definition long_authors (a : article) : list string * nat :=
  let '(skip, total_skip, authors) := long_loop a in
  ((if (0 <? skip)%nat then authors ++ ["et al."] else authors)%list, total_skip).

(** The short branch: [[format_author(auth, aff) for auth, aff in zip(...)]]. *)
Definition short_authors (a : article) : list string :=
  map (fun '(au, af) => format_author au af) (combine (author a) (aff a)).

(** [formatted_authors]; [long_author_list] defaults to 50 and is never
    passed otherwise by the script. *)
Definition formatted_authors (a : article) (long_author_list : nat) : string :=
  if (long_author_list <? List.length (author a))%nat then
    let '(authors, total_skip) := long_authors a in
    Py.join "; " authors ++ " (" ++ Py.str_nat total_skip ++ " authors not shown)"
  else Py.join "; " (short_authors a).

(** The dictionary returned by [formatted_summary]. *)
Record kwds := mk_kwds {
  k_article : article;
  k_formatted_authors : string;
  k_formatted_volume : string;
  k_formatted_issue : string;
  k_formatted_page : string;
  k_formatted_year : string;
  k_formatted_url : string
}.

(** [f", {article.page[0]}" if (article.page is not None and article.page[0]
    is not None) else ""]; [page[0]] of an empty list raises [IndexError]. *)
Definition formatted_page (p : option (list (option string))) : result string :=
  match p with
  | None => Ok ""
  | Some [] => Raise IndexError
  | Some (None :: _) => Ok ""
  | Some (Some p0 :: _) => Ok (", " ++ p0)
  end.

Definition first_or_empty (xs : list string) : string :=
  match xs with [] => "" | x :: _ => x end.

Definition formatted_summary_n (a : article) (long_author_list : nat) : result kwds :=
  let fa := formatted_authors a long_author_list in
  let fv := match volume a with None => "in press" | Some v => v end in
  let fi := match issue a with None => "" | Some i => ", " ++ i end in
  match formatted_page (page a) with
  | Raise e => Raise e
  | Ok fp =>
      Ok (mk_kwds a fa fv fi fp
            (first_or_empty (Py.split_char "-"%char (pubdate a)))
            ("https://ui.adsabs.harvard.edu/abs/" ++ bibcode a))
  end.

(** [formatted_summary(article)] with the default [long_author_list=50]. *)
Definition formatted_summary (a : article) : result kwds :=
  formatted_summary_n a 50.

(* ------------------------------------------------------------------ *)
(** ** Record store (lines 128-142) *)

(** Column types of the astropy table: ['i4'] and ['S<n>']. *)
Inductive dtype := I4 | Sbytes (width : nat).

(** A row [(id, updated, title, bibcode, pubdate)]. *)
Record row := mk_row {
  row_id : Z;
  row_updated : string;
  row_title : string;
  row_bibcode : string;
  row_pubdate : string
}.

(** The record table; only its rows change during a run. *)
Record table := mk_table {
  names : list string;
  dtypes : list dtype;
  rows : list row
}.

(** [Table(rows=None, names=(...), dtype=('i4', 'S26', 'S500', 'S100', 'S100'))] *)
Definition empty_records : table :=
  mk_table ["id"; "updated"; "title"; "bibcode"; "pubdate"]
           [I4; Sbytes 26; Sbytes 500; Sbytes 100; Sbytes 100] [].

Inductive encoding := Latin1 | Utf8.

(** [load_records(path)]: [exists] is [os.path.exists(path)] and
    [read enc] is [Table.read(path, encoding=enc)], which may raise.  The bare
    [except:] catches every exception of the first read. *)
Definition load_records (exists_ : bool) (read : encoding -> result table) : result table :=
  if exists_ then
    match read Latin1 with
    | Ok t => Ok t
    | Raise _ => read Utf8
    end
  else Ok empty_records.

(** [s.encode()]: UTF-8; a character is a code point 0..255. *)
Definition utf8_bytes (c : ascii) : list nat :=
  let n := nat_of_ascii c in
  if (n <? 128)%nat then [n] else [192 + n / 64; 128 + n mod 64]%nat.

Definition encode (s : string) : list nat := flat_map utf8_bytes (list_ascii_of_string s).

Definition hex_digit (n : nat) : ascii :=
  if (n <? 10)%nat then ascii_of_nat (48 + n) else ascii_of_nat (87 + n).

Definition backslash : ascii := ascii_of_nat 92.

(** One byte inside [repr(b)], [quote] being the delimiter. *)
Definition byte_repr (quote b : nat) : string :=
  if ((b =? quote) || (b =? 92))%nat then String backslash (String (ascii_of_nat b) EmptyString)
  else if (b =? 9)%nat then String backslash "t"
  else if (b =? 10)%nat then String backslash "n"
  else if (b =? 13)%nat then String backslash "r"
  else if ((b <? 32) || (127 <=? b))%nat
  then String backslash (String "x" (String (hex_digit (b / 16))
                                       (String (hex_digit (b mod 16)) EmptyString)))
  else String (ascii_of_nat b) EmptyString.

(** [str(b)] of a [bytes] object ([PyBytes_Repr]): delimited by a single
    quote (39) unless the bytes hold one and no double quote (34), then by
    a double quote. *)
Definition bytes_str (bs : list nat) : string :=
  let quote := if existsb (Nat.eqb 39) bs && negb (existsb (Nat.eqb 34) bs) then 34%nat else 39%nat in
  "b" ++ String (ascii_of_nat quote)
    (String.concat EmptyString (map (byte_repr quote) bs) ++ String (ascii_of_nat quote) EmptyString).

(** [prepare_record(article)] with [now] the value of [f"{datetime.now()}"].
    [article.title[0]] raises on an empty title list. *)
Definition prepare_record (now : string) (a : article) : result row :=
  match title a with
  | [] => Raise IndexError
  | t0 :: _ => Ok (mk_row (aid a) now (bytes_str (encode t0)) (bibcode a) (pubdate a))
  end.

(** [records.add_row(r)]; rows are appended at the end.  astropy also fits
    each value to its column: an id outside the range of an ['i4'] column
    raises [ValueError], and a text longer than its column widens it.
    Neither is modelled: the properties below hold of runs in which every
    [add_row] succeeds, or of the stream before the first [add_row]. *)
Definition add_row (t : table) (r : row) : table :=
  mk_table (names t) (dtypes t) (rows t ++ [r])%list.

(** [int(article.id) in records["id"]] *)
Definition id_in (i : Z) (t : table) : bool :=
  existsb (Z.eqb i) (map row_id (rows t)).

(* ------------------------------------------------------------------ *)
(** ** Filter loop (lines 188-213) *)

(** An entry [[i] + meta = [i, j, author, aff]] of [matching_authors]. *)
Definition author_match := (nat * (nat * string * string))%type.

(** The inner loop over [enumerate(map(matching_author, article.author,
    article.aff))]; [map] with two iterables stops at the shorter one. *)
Definition matching_authors (a : article) : list author_match :=
  flat_map (fun '(i, (au, af)) =>
              match matching_author au af with
              | Some meta => [(i, meta)]
              | None => []
              end)
           (enumerate (combine (author a) (aff a))).

(** The outer loop [for i, article in enumerate(articles)]; [clock i] is the
    time stamp [datetime.now()] yields for the [i]-th article.  The state is
    [(records, new_articles)]. *)
Fixpoint filter_loop (clock : nat -> string) (i : nat) (records : table)
    (new_articles : list (article * list author_match)) (articles : list article)
    : result (table * list (article * list author_match)) :=
  match articles with
  | [] => Ok (records, new_articles)
  | a :: rest =>
      if id_in (aid a) records then filter_loop clock (S i) records new_articles rest
      else
        let ma := matching_authors a in
        if (List.length ma =? 0)%nat then filter_loop clock (S i) records new_articles rest
        else
          match prepare_record (clock i) a with
          | Raise e => Raise e
          | Ok r => filter_loop clock (S i) (add_row records r)
                      (new_articles ++ [(a, ma)])%list rest
          end
  end.

Definition filter_step (clock : nat -> string) (records : table) (articles : list article)
  : result (table * list (article * list author_match)) :=
  filter_loop clock 0 records [] articles.

(* ------------------------------------------------------------------ *)
(** ** Query window (lines 159-168) *)

(** [year, month]: from [sys.argv[1:3]] through [int] ([int_of] may raise)
    when at least two arguments are given, otherwise the month before
    [(now.year, now.month)]. *)
Definition resolve_window (argv : list string) (int_of : string -> result Z)
    (now_year now_month : Z) : result (Z * Z) :=
  if (3 <=? List.length argv)%nat then
    match int_of (nth 1 argv ""), int_of (nth 2 argv "") with
    | Ok y, Ok m => Ok (y, m)
    | Raise e, _ => Raise e
    | _, Raise e => Raise e
    end
  else
    let '(year, month) := (now_year, (now_month - 1)%Z) in
    if (month <? 1)%Z then Ok ((year - 1)%Z, 12%Z) else Ok (year, month).

(* ------------------------------------------------------------------ *)
(** ** [np.argsort] (line 233)

    [np.argsort(author_index)] sorts with numpy's default [kind="quicksort"].
    On a 64-bit integer array without a SIMD dispatch this is the portable
    introsort [aquicksort_] of numpy/_core/src/npysort/quicksort.cpp: median
    of three partitioning while a segment has more than
    [SMALL_QUICKSORT = 15] gaps ([npysort_common.h]), insertion sort below, and [aheapsort_]
    (heapsort.cpp) on a segment once the depth budget [2 * msb(num)] is
    spent.  Where numpy dispatches the sort to a vectorised kernel
    (x86-simd-sort on AVX-512 CPUs), equal keys come out in yet another
    order; that path is not modelled.  [tosort] is the index array; positions are 0-based.  Every loop
    gets [fuel] iterations, more than any loop of a run on [num] elements
    takes when [fuel = 2 * num + 4]. *)
Module NpArgsort.
Section Sort.
Variable v : list Z.

Definition key (i : nat) : Z := nth i v 0%Z.
Definition less (i j : nat) : bool := Z.ltb (key i) (key j).

Definition get (t : list nat) (p : nat) : nat := nth p t 0%nat.
Definition set (t : list nat) (p x : nat) : list nat :=
  (firstn p t ++ x :: skipn (S p) t)%list.
(** [INTP_SWAP( *p, *q )] *)
Definition swap (t : list nat) (p q : nat) : list nat :=
  set (set t p (get t q)) q (get t p).

Variable fuel : nat.

(** [do { ++pi; } while (less(v[*pi], vp));] *)
Fixpoint scan_up (f : nat) (t : list nat) (pi : nat) (vp : Z) : option nat :=
  match f with
  | O => None
  | S f => let pi := S pi in
           if Z.ltb (key (get t pi)) vp then scan_up f t pi vp else Some pi
  end.

(** [do { --pj; } while (less(vp, v[*pj]));] *)
Fixpoint scan_down (f : nat) (t : list nat) (pj : nat) (vp : Z) : option nat :=
  match f with
  | O => None
  | S f => let pj := pred pj in
           if Z.ltb vp (key (get t pj)) then scan_down f t pj vp else Some pj
  end.

(** The partition [for (;;)] loop; returns the index array and [pi]. *)
Fixpoint part_loop (f : nat) (t : list nat) (pi pj : nat) (vp : Z)
  : option (list nat * nat) :=
  match f with
  | O => None
  | S f =>
      match scan_up fuel t pi vp, scan_down fuel t pj vp with
      | Some pi, Some pj =>
          if (pj <=? pi)%nat then Some (t, pi)
          else part_loop f (swap t pi pj) pi pj vp
      | _, _ => None
      end
  end.

(** One iteration of [while ((pr - pl) > SMALL_QUICKSORT)] up to the push:
    median of three, pivot parked at [pr - 1], partition, pivot moved to
    [pi].  Returns the index array and [pi]. *)
Definition partition (t : list nat) (pl pr : nat) : option (list nat * nat) :=
  let pm := (pl + (pr - pl) / 2)%nat in
  let t := if less (get t pm) (get t pl) then swap t pm pl else t in
  let t := if less (get t pr) (get t pm) then swap t pr pm else t in
  let t := if less (get t pm) (get t pl) then swap t pm pl else t in
  let vp := key (get t pm) in
  let pi := pl in
  let pj := (pr - 1)%nat in
  let t := swap t pm pj in
  match part_loop fuel t pi pj vp with
  | Some (t, pi) => let pk := (pr - 1)%nat in Some (swap t pi pk, pi)
  | None => None
  end.

(** The [while] loop: partition, push the larger part as [(pl, pr)] with
    the decremented depth, continue on the smaller part. *)
Fixpoint qs_while (f : nat) (t : list nat) (pl pr : nat)
    (stack : list (nat * nat)) (depths : list Z) (cdepth : Z)
  : option (list nat * nat * nat * list (nat * nat) * list Z) :=
  match f with
  | O => None
  | S f =>
      if (15 <? pr - pl)%nat then
        match partition t pl pr with
        | None => None
        | Some (t, pi) =>
            let cdepth := (cdepth - 1)%Z in
            if (pi - pl <? pr - pi)%nat
            then qs_while f t (pl) (pi - 1) ((S pi, pr) :: stack) (cdepth :: depths) cdepth
            else qs_while f t (S pi) pr ((pl, pi - 1)%nat :: stack) (cdepth :: depths) cdepth
        end
      else Some (t, pl, pr, stack, depths)
  end.

(** Inner loop of the insertion sort: shift [tosort[pk]] right while
    [less(vp, v[*pk])] and [pj > pl]. *)
Fixpoint ins_shift (f : nat) (t : list nat) (pl pj : nat) (vp : Z) : option (list nat * nat) :=
  match f with
  | O => None
  | S f =>
      if (pl <? pj)%nat && Z.ltb vp (key (get t (pj - 1)))
      then ins_shift f (set t pj (get t (pj - 1))) pl (pj - 1) vp
      else Some (t, pj)
  end.

(** [for (pi = pl + 1; pi <= pr; ++pi)] *)
Fixpoint insertion (f : nat) (t : list nat) (pl pi pr : nat) : option (list nat) :=
  match f with
  | O => None
  | S f =>
      if (pi <=? pr)%nat then
        let vi := get t pi in
        match ins_shift fuel t pl pi (key vi) with
        | Some (t, pj) => insertion f (set t pj vi) pl (S pi) pr
        | None => None
        end
      else Some t
  end.

(** [aheapsort_] on the [n] entries from position [base]; [a[k]] is
    [tosort[base + k - 1]]. *)
Definition hget (t : list nat) (base k : nat) : nat := get t (base + k - 1).
Definition hset (t : list nat) (base k x : nat) : list nat := set t (base + k - 1) x.

Fixpoint sift (f : nat) (t : list nat) (base n i j tmp : nat) : option (list nat) :=
  match f with
  | O => None
  | S f =>
      if (j <=? n)%nat then
        let j := if (j <? n)%nat && less (hget t base j) (hget t base (S j))
                 then S j else j in
        if less tmp (hget t base j)
        then sift f (hset t base i (hget t base j)) base n j (j + j) tmp
        else Some (hset t base i tmp)
      else Some (hset t base i tmp)
  end.

(** [for (l = n >> 1; l > 0; --l)] *)
Fixpoint heapify (f : nat) (t : list nat) (base n l : nat) : option (list nat) :=
  match f with
  | O => None
  | S f =>
      if (0 <? l)%nat then
        match sift fuel t base n l (l + l) (hget t base l) with
        | Some t => heapify f t base n (l - 1)
        | None => None
        end
      else Some t
  end.

(** [for (; n > 1;)] *)
Fixpoint extract (f : nat) (t : list nat) (base n : nat) : option (list nat) :=
  match f with
  | O => None
  | S f =>
      if (1 <? n)%nat then
        let tmp := hget t base n in
        let t := hset t base n (hget t base 1) in
        let n := (n - 1)%nat in
        match sift fuel t base n 1 2 tmp with
        | Some t => extract f t base n
        | None => None
        end
      else Some t
  end.

Definition aheapsort (t : list nat) (base n : nat) : option (list nat) :=
  match heapify fuel t base n (n / 2) with
  | Some t => extract fuel t base n
  | None => None
  end.

(** The outer [for (;;)] loop with its [stack_pop]. *)
Fixpoint qs_outer (f : nat) (t : list nat) (pl pr : nat)
    (stack : list (nat * nat)) (depths : list Z) (cdepth : Z) : option (list nat) :=
  match f with
  | O => None
  | S f =>
      let seg :=
        if (cdepth <? 0)%Z then
          match aheapsort t pl (pr + 1 - pl) with
          | Some t => Some (t, stack, depths)
          | None => None
          end
        else
          match qs_while fuel t pl pr stack depths cdepth with
          | Some (t, pl, pr, stack, depths) =>
              match insertion fuel t pl (S pl) pr with
              | Some t => Some (t, stack, depths)
              | None => None
              end
          | None => None
          end in
      match seg with
      | None => None
      | Some (t, [], _) => Some t
      | Some (t, (pl, pr) :: stack, d :: depths) => qs_outer f t pl pr stack depths d
      | Some (_, _ :: _, []) => None
      end
  end.

End Sort.

(** [npy_get_msb(n)]: the index of the highest set bit. *)
Definition msb (n : nat) : nat := Nat.log2 n.

(** [np.argsort(v)] *)
Definition argsort (v : list Z) : option (list nat) :=
  let num := List.length v in
  qs_outer v (2 * num + 4) (2 * num + 4) (seq 0 num) 0 (num - 1) [] []
           (Z.of_nat (2 * msb num)).

End NpArgsort.


(* ------------------------------------------------------------------ *)
(** ** Ordering and rendering the digest (lines 225-250) *)

(** [author_index]: [ma[0][0]] when [len(ma)], else 1000. *)
Definition author_index (new_articles : list (article * list author_match)) : list Z :=
  map (fun '(_, ma) => match ma with
                       | (i, _) :: _ => Z.of_nat i
                       | [] => 1000%Z
                       end) new_articles.

(** [[new_articles[idx] for idx in na_indices]] *)
Fixpoint reorder {A} (xs : list A) (idx : list nat) : result (list A) :=
  match idx with
  | [] => Ok []
  | i :: rest =>
      match nth_error xs i, reorder xs rest with
      | Some x, Ok ys => Ok (x :: ys)
      | None, _ => Raise IndexError
      | _, Raise e => Raise e
      end
  end.

Definition dq : string := String (ascii_of_nat 34) EmptyString.

(** [EXECUTIVE_SUMMARY_ARTICLE_FORMAT.format( **kwds )]; [article.title[0]]
    raises on an empty title list. *)
Definition render_line (count : nat) (k : kwds) : result string :=
  match title (k_article k) with
  | [] => Raise IndexError
  | t0 :: _ =>
      Ok (Py.str_nat count ++ ". <a href=" ++ dq ++ k_formatted_url k ++ dq ++ ">"
          ++ t0 ++ "</a><br>" ++ k_formatted_authors k ++ ", " ++ pub (k_article k)
          ++ ", " ++ k_formatted_volume k ++ k_formatted_issue k ++ k_formatted_page k
          ++ " (" ++ k_formatted_year k ++ ").<br>")
  end.

(** [for count, (article, matching_authors) in enumerate(new_articles, start=1)] *)
Fixpoint render_from (count : nat) (xs : list (article * list author_match))
  : result (list string) :=
  match xs with
  | [] => Ok []
  | (a, _) :: rest =>
      match formatted_summary a with
      | Raise e => Raise e
      | Ok k =>
          match render_line count k, render_from (S count) rest with
          | Ok line, Ok lines => Ok (line :: lines)
          | Raise e, _ => Raise e
          | _, Raise e => Raise e
          end
      end
  end.

(** [ranked xs]: the [(count, entry)] pairs the loop visits. *)
Definition ranked {A} (xs : list A) : list (nat * A) :=
  combine (seq 1 (List.length xs)) xs.

(* ------------------------------------------------------------------ *)
(** ** The module-level run (lines 148-250) *)

Definition str_int (z : Z) : string := NilEmpty.string_of_int (Z.to_int z).

(** [LOCAL_RECORDS_PATH.format(here=here)] *)
Definition records_path (here : string) : string := here ++ "/records.csv".

(** [OUTPUT_PATH_PREFIX.format(year=year, month=month, here=here) + ".txt"] *)
Definition summary_path (here : string) (year month : Z) : string :=
  here ++ "/lunations/RSAA_Papers_" ++ str_int year ++ "_" ++ str_int month ++ ".txt".

(** [datetime(year, month, 1)] accepts year 1..9999 and month 1..12. *)
Definition valid_date (year month : Z) : bool :=
  ((1 <=? year) && (year <=? 9999) && (1 <=? month) && (month <=? 12))%Z.

(** A value the C [int] of the argument parser holds. *)
Definition c_int (z : Z) : bool := ((-2147483648 <=? z) && (z <=? 2147483647))%Z.

(** The exception of a rejected [datetime(year, month, 1)]: its arguments
    are converted to C [int]s first ([OverflowError] when one does not
    fit), then range-checked ([ValueError]). *)
Definition date_error (year month : Z) : py_exn :=
  if c_int year && c_int month then ValueError else OverflowError.

Inductive file := FRecords (t : table) | FText (s : string).

(** File writes: [records.write(path, overwrite=True)] and
    [open(path, "w").write(s)]; both replace the file. *)
Inductive event :=
| WriteRecords (path : string) (t : table)
| WriteText (path : string) (s : string).

(** How a run ends: [sys.exit()] (status 0), falling off the end, an
    uncaught exception, or the model's sort fuel running out (the fuel of
    [NpArgsort.argsort] is chosen so this does not happen). *)
Inductive outcome := Exited | Finished | Failed (e : py_exn) | NoFuel.

Definition apply_event (fs : string -> option file) (ev : event) : string -> option file :=
  match ev with
  | WriteRecords p t => fun q => if String.eqb q p then Some (FRecords t) else fs q
  | WriteText p s => fun q => if String.eqb q p then Some (FText s) else fs q
  end.

Definition apply_events (fs : string -> option file) (evs : list event) : string -> option file :=
  fold_left apply_event evs fs.

Definition event_path (ev : event) : string :=
  match ev with WriteRecords p _ => p | WriteText p _ => p end.

(** The script body.  [exists_] and [read] are the record file as seen by
    [load_records]; [search year month] is the iterated result of
    [ads.SearchQuery] for the query built from the window (the query is a
    function of [(year, month)] only); [clock] gives the time stamps. *)
Definition run (here : string) (argv : list string) (int_of : string -> result Z)
    (now_year now_month : Z) (exists_ : bool) (read : encoding -> result table)
    (search : Z -> Z -> result (list article)) (clock : nat -> string)
  : list event * outcome :=
  match load_records exists_ read with
  | Raise e => ([], Failed e)
  | Ok records =>
  match resolve_window argv int_of now_year now_month with
  | Raise e => ([], Failed e)
  | Ok (year, month) =>
  if negb (valid_date year month) then ([], Failed (date_error year month)) else
  match search year month with
  | Raise e => ([], Failed e)
  | Ok articles =>
  match filter_step clock records articles with
  | Raise e => ([], Failed e)
  | Ok (records, new_articles) =>
  let saved := WriteRecords (records_path here) records in
  match new_articles with
  | [] => ([saved], Exited)
  | _ :: _ =>
      match NpArgsort.argsort (author_index new_articles) with
      | None => ([saved], NoFuel)
      | Some na_indices =>
          match reorder new_articles na_indices with
          | Raise e => ([saved], Failed e)
          | Ok ordered =>
              match render_from 1 ordered with
              | Raise e => ([saved], Failed e)
              | Ok lines =>
                  ([saved; WriteText (summary_path here year month) (Py.join (String "010"%char EmptyString) lines)],
                   Finished)
              end
          end
      end
  end
  end
  end
  end
  end.

(* ------------------------------------------------------------------ *)
(** ** Query (lines 173-182) *)
Definition nl : string := String "010"%char EmptyString.

(** [ADS_QUERY = "aff:\"Australian National University\""] *)
Definition ADS_QUERY : string := "aff:" ++ dq ++ "Australian National University" ++ dq.

(** [f"{z:02d}"]: zero-padded to width 2; a negative number already has
    two characters. *)
Definition fmt02d (z : Z) : string :=
  if ((0 <=? z) && (z <? 10))%Z then "0" ++ str_int z else str_int z.

(** The f-string of lines 173-179, line breaks and indentation included;
    [year % 100] is Python's floor modulo, [Z.modulo]. *)
Definition raw_query (year month : Z) : string :=
  nl ++ "    " ++ ADS_QUERY ++ nl ++
  "    AND (" ++ nl ++
  "            (property:refereed AND pubdate:" ++ str_int year ++ "-" ++ fmt02d month ++ ")" ++ nl ++
  "        OR  identifier:" ++ dq ++ str_int (year mod 100) ++ fmt02d month ++ ".*" ++ dq ++ nl ++
  "        )" ++ nl ++
  "    ".

(** [re.sub("\s{2,}", " ", s)]: [\s] matches what [str.isspace] accepts;
    scanning left to right, each maximal run of two or more whitespace
    characters becomes one space, a single whitespace character stays.
    [run] holds the whitespace run read so far. *)
Definition ws_flush (run : list ascii) : string :=
  match run with
  | [] => EmptyString
  | [c] => String c EmptyString
  | _ => " "
  end.

Fixpoint ws_collapse (run : list ascii) (s : string) : string :=
  match s with
  | EmptyString => ws_flush run
  | String c r =>
      if Py.is_space c then ws_collapse (run ++ [c])%list r
      else ws_flush run ++ String c (ws_collapse [] r)
  end.

Definition re_sub_ws (s : string) : string := ws_collapse [] s.

(** [query = re.sub("\s{2,}", " ", query).strip()] *)
Definition query (year month : Z) : string := Py.strip (re_sub_ws (raw_query year month)).

Definition no_space (s : string) : bool :=
  forallb (fun c => negb (Py.is_space c)) (list_ascii_of_string s).


(** ** Readings of the spec compared with the code *)

(** The affiliation test of the loop in [matching_author]. *)
Definition rsaa_segment (sa : string) : bool :=
  Py.contains "astronomy" sa && Py.contains "2611" sa.

(** [sorted_keys ks]: [ks] is in ascending order. *)
Fixpoint sorted_keys (ks : list Z) : bool :=
  match ks with
  | x :: ((y :: _) as rest) => Z.leb x y && sorted_keys rest
  | _ => true
  end.

(** [is_perm idx n]: [idx] has length [n] and lists every index below [n],
    i.e. it is a permutation of [0 .. n-1]. *)
Definition is_perm (idx : list nat) (n : nat) : bool :=
  (List.length idx =? n)%nat && forallb (fun i => existsb (Nat.eqb i) idx) (seq 0 n).

(** numpy's contract for [np.argsort(keys)]: a permutation of the positions
    under which the keys ascend. *)
Definition argsort_contract (keys : list Z) (idx : list nat) : bool :=
  is_perm idx (List.length keys) && sorted_keys (map (fun i => nth i keys 0%Z) idx).

(** The long-list rule read from the spec, on the authors after the first:
    a matched author is shown (formatted), preceded by one ["..."] when a run
    of skipped authors comes before it; a skipped run at the very end is
    shown as ["et al."]; [skipping] records whether a run is open. *)
Fixpoint shown_rest (skipping : bool) (rest : list (string * string)) : list string :=
  match rest with
  | [] => if skipping then ["et al."] else []
  | (au, af) :: r =>
      if is_matching_author au af
      then ((if skipping then ["..."] else []) ++ format_author au af :: shown_rest false r)%list
      else shown_rest true r
  end.

(** The number of matched authors in [rest]. *)
Definition count_matching (rest : list (string * string)) : nat :=
  List.length (filter (fun '(au, af) => is_matching_author au af) rest).

(** ** Subsequences *)
(** [xs] is [ys] with some entries left out, order kept. *)
Inductive subseq {A : Type} : list A -> list A -> Prop :=
| subseq_nil : subseq [] []
| subseq_skip x xs ys : subseq xs ys -> subseq xs (x :: ys)
| subseq_take x xs ys : subseq xs ys -> subseq (x :: xs) (x :: ys).

(** ** Sample inputs *)

Definition rsaa_aff : string :=
  "Research School of Astronomy and Astrophysics, Australian National University, Canberra, ACT 2611, Australia".
Definition other_aff : string := "School of Physics and Astronomy, Monash University, Clayton 3800, Australia".

(** A refereed article with id [n] and the given parallel author and
    affiliation lists. *)
Definition sample_article (n : Z) (authors affs : list string) : article :=
  mk_article n authors affs ["Paper " ++ str_int n] ("2024ApJ...900.." ++ str_int n) "ApJ"
             (Some "900") (Some "2") (Some [Some ("L" ++ str_int n)]) "2024-01-00".

Definition sample_clock (i : nat) : string := "2024-02-01 09:00:00." ++ Py.str_nat i.

(** A stream with an RSAA article, an article without RSAA authors, and the
    RSAA article once more. *)
Definition sample_stream : list article :=
  [sample_article 101 ["Casey, A."; "Lee, B."] [rsaa_aff; other_aff];
   sample_article 102 ["Smith, C."] [other_aff];
   sample_article 101 ["Casey, A."; "Lee, B."] [rsaa_aff; other_aff]].

(** An article with 51 authors, of whom only the last is at RSAA. *)
Definition long51 : article :=
  sample_article 201 (map (fun i => "Author " ++ Py.str_nat i) (seq 0 51))
                 (repeat other_aff 50 ++ [rsaa_aff])%list.

(** An article with 60 authors, of whom those at 0, 5 and 12 are at RSAA. *)
Definition long60 : article :=
  sample_article 202 (map (fun i => "Author " ++ Py.str_nat i) (seq 0 60))
                 (map (fun i => if existsb (Nat.eqb i) [0; 5; 12]%nat then rsaa_aff else other_aff)
                      (seq 0 60)).

(** An article with [len] authors of whom only the one at position [k] is
    at RSAA. *)
Definition rsaa_at (n : Z) (k len : nat) : article :=
  sample_article n (map (fun i => "Author " ++ Py.str_nat i) (seq 0 len))
                 (map (fun i => if (i =? k)%nat then rsaa_aff else other_aff) (seq 0 len)).

(** Three new articles whose first matching authors are at 3, 0 and 7. *)
Definition stream_3_0_7 : list article := [rsaa_at 401 3 4; rsaa_at 402 0 2; rsaa_at 403 7 8].

(** Eighteen new articles, each led by an RSAA author. *)
Definition stream_18_first : list article :=
  map (fun n => rsaa_at (Z.of_nat n) 0 2) (seq 1 18).

(** The articles the filter accepts from [stream_3_0_7]. *)
Definition new_3_0_7 : list (article * list author_match) :=
  match filter_step sample_clock empty_records stream_3_0_7 with
  | Ok (_, new_articles) => new_articles
  | Raise _ => []
  end.

Definition argv_2024_13 : list string := ["ads-papers-rsaa.py"; "2024"; "13"].

Definition int_of_2024_13 (s : string) : result Z :=
  if String.eqb s "2024" then Ok 2024%Z else if String.eqb s "13" then Ok 13%Z else Raise ValueError.

Definition argv_3e9 : list string := ["ads-papers-rsaa.py"; "3000000000"; "1"].

Definition int_of_3e9 (s : string) : result Z :=
  if String.eqb s "3000000000" then Ok 3000000000%Z
  else if String.eqb s "1" then Ok 1%Z else Raise ValueError.

(* ================================================================== *)
(** * Properties *)

(** ** Affiliation matcher *)

Lemma matching_loop_none (j : nat) (au af : string) (sas : list string) :
  matching_loop j au af sas = None <-> Forall (fun sa => rsaa_segment sa = false) sas.
Proof.
  revert j; induction sas as [|sa sas IH]; intros j; simpl.
  - split; auto.
  - unfold rsaa_segment.
    destruct (Py.contains "astronomy" sa && Py.contains "2611" sa) eqn:E.
    + split; [discriminate | intros H; inversion H; congruence].
    + rewrite IH. split; [intros H; constructor; auto | intros H; inversion H; auto].
Qed.

Lemma matching_loop_some (j : nat) (au af : string) (sas : list string) r :
  matching_loop j au af sas = Some r ->
  exists k sa, r = ((j + k)%nat, au, af) /\ nth_error sas k = Some sa /\
    rsaa_segment sa = true /\
    (forall k' sb, (k' < k)%nat -> nth_error sas k' = Some sb -> rsaa_segment sb = false).
Proof.
  revert j; induction sas as [|sa sas IH]; intros j H; simpl in H; [discriminate|].
  destruct (Py.contains "astronomy" sa && Py.contains "2611" sa) eqn:E.
  - injection H as <-. exists 0%nat, sa. repeat split; auto.
    + f_equal; f_equal; lia.
    + intros k' sb Hk; lia.
  - destruct (IH (S j) H) as (k & sb & -> & Hn & Hok & Hbefore).
    exists (S k), sb. repeat split; auto.
    + f_equal; f_equal; lia.
    + intros [|k'] sc Hk Hc; simpl in Hc.
      * injection Hc as <-. exact E.
      * apply (Hbefore k'); auto; lia.
Qed.

(** C1 (counterexample): ["Astronomy; 2611"] contains both tokens once
    lower-cased, yet [matching_author] reports no match, because the two
    tokens sit in different [;]-separated sub-affiliations. *)
Lemma matching_author_split_tokens_cex :
  Py.contains "astronomy" (Py.lower "Astronomy; 2611") = true /\
  Py.contains "2611" (Py.lower "Astronomy; 2611") = true /\
  matching_author "A. Author" "Astronomy; 2611" = None.
Proof. vm_compute. repeat split. Qed.

(** C1 (amended): [matching_author author aff] reports no match exactly when
    no [;]-separated sub-affiliation of [aff] (after [&amp;] -> [&], removing
    commas and colons, lower-casing and stripping) contains both
    ["astronomy"] and ["2611"]; otherwise it reports [(j, author, aff)] with
    [j] the index of the first such sub-affiliation.  The empty string gives
    no match.  The function is total: it never raises. *)
Theorem matching_author_first_segment (au af : string) :
  (matching_author au af = None <->
     Forall (fun sa => rsaa_segment sa = false) (strip_affiliations af)) /\
  (forall r, matching_author au af = Some r ->
     exists j sa, r = (j, au, af) /\ nth_error (strip_affiliations af) j = Some sa /\
       rsaa_segment sa = true /\
       (forall k sb, (k < j)%nat -> nth_error (strip_affiliations af) k = Some sb ->
          rsaa_segment sb = false)) /\
  matching_author au "" = None.
Proof.
  split; [|split].
  - apply matching_loop_none.
  - intros r H. apply matching_loop_some in H.
    destruct H as (k & sa & -> & H1 & H2 & H3). exists k, sa. auto.
  - reflexivity.
Qed.

Example matching_author_amp_ex :
  matching_author "Casey, A." "Research School of Astronomy &amp; Astrophysics, Weston Creek: ACT 2611; Monash"
  = Some (0%nat, "Casey, A.", "Research School of Astronomy &amp; Astrophysics, Weston Creek: ACT 2611; Monash").
Proof. vm_compute. reflexivity. Qed.

(** ** Filter loop and record table *)

Lemma id_in_iff (i : Z) (t : table) : id_in i t = true <-> In i (map row_id (rows t)).
Proof.
  unfold id_in. rewrite existsb_exists. split.
  - intros (x & Hx & E). apply Z.eqb_eq in E. subst. exact Hx.
  - intros H. exists i. split; [exact H | apply Z.eqb_refl].
Qed.

Lemma id_in_same_ids (i : Z) (t t' : table) :
  map row_id (rows t') = map row_id (rows t) -> id_in i t' = id_in i t.
Proof. unfold id_in. intros ->. reflexivity. Qed.

Lemma prepare_record_id (now : string) (a : article) (r : row) :
  prepare_record now a = Ok r -> row_id r = aid a.
Proof.
  unfold prepare_record. destruct (title a); [discriminate|].
  intros H. injection H as <-. reflexivity.
Qed.

Lemma rows_add_row_ids (t : table) (r : row) :
  map row_id (rows (add_row t r)) = (map row_id (rows t) ++ [row_id r])%list.
Proof. unfold add_row; simpl. rewrite map_app. reflexivity. Qed.

Definition new_id (x : article * list author_match) : Z := aid (fst x).

(** What one run of the filter loop does to the table: it appends one row
    per accepted article, the accepted ids are pairwise distinct and new to
    the starting table, and every article of the stream ends up either
    recorded or without a matching author. *)
Lemma filter_loop_effect clock (i : nat) (r : table) n (arts : list article) r' n' :
  filter_loop clock i r n arts = Ok (r', n') ->
  exists extra,
    n' = (n ++ extra)%list /\
    map row_id (rows r') = (map row_id (rows r) ++ map new_id extra)%list /\
    NoDup (map new_id extra) /\
    Forall (fun x => id_in (new_id x) r = false) extra /\
    (forall a, In a arts -> id_in (aid a) r' = true \/ matching_authors a = []).
Proof.
  revert i r n. induction arts as [|a rest IH]; intros i r n H; simpl in H.
  - injection H as <- <-. exists [].
    split; [now rewrite app_nil_r|]. split; [now rewrite app_nil_r|].
    split; [constructor|]. split; [constructor|]. intros ? [].
  - destruct (id_in (aid a) r) eqn:Hin.
    + destruct (IH _ _ _ H) as (extra & En & Er & Hnd & Hfresh & Hall).
      exists extra. repeat split; auto.
      intros a' [<- | Ha']; auto. left.
      apply id_in_iff. rewrite Er. apply in_or_app. left. apply id_in_iff. exact Hin.
    + destruct (List.length (matching_authors a) =? 0)%nat eqn:Hl.
      * destruct (IH _ _ _ H) as (extra & En & Er & Hnd & Hfresh & Hall).
        exists extra. repeat split; auto.
        intros a' [<- | Ha']; auto. right.
        apply Nat.eqb_eq, length_zero_iff_nil in Hl. exact Hl.
      * destruct (prepare_record (clock i) a) as [row|e] eqn:Hrow; [|discriminate].
        destruct (IH _ _ _ H) as (extra & En & Er & Hnd & Hfresh & Hall).
        apply prepare_record_id in Hrow.
        assert (Ha_in : id_in (aid a) (add_row r row) = true).
        { apply id_in_iff. rewrite rows_add_row_ids, Hrow.
          apply in_or_app. right. left. reflexivity. }
        exists ((a, matching_authors a) :: extra). split; [|split; [|split; [|split]]].
        -- rewrite En, <- app_assoc. reflexivity.
        -- rewrite Er, rows_add_row_ids, Hrow, <- app_assoc. reflexivity.
        -- simpl. constructor; auto.
           intros Hx. apply in_map_iff in Hx. destruct Hx as (x & Ex & Hx).
           rewrite Forall_forall in Hfresh. specialize (Hfresh x Hx).
           unfold new_id in Ex, Hfresh. simpl in Ex.
           rewrite Ex, Ha_in in Hfresh. discriminate.
        -- constructor; [exact Hin|].
           rewrite Forall_forall in *. intros x Hx. specialize (Hfresh x Hx).
           destruct (id_in (new_id x) r) eqn:E; auto.
           rewrite <- Hfresh. symmetry. apply id_in_iff.
           rewrite rows_add_row_ids. apply in_or_app. left. apply id_in_iff. exact E.
        -- intros a' [<- | Ha']; auto. left.
           apply id_in_iff. rewrite Er. apply in_or_app. left. apply id_in_iff. exact Ha_in.
Qed.

(** A stream whose every article is already recorded or has no matching
    author leaves the table and the accepted list unchanged. *)
Lemma filter_loop_nothing_new clock (i : nat) (r : table) n (arts : list article) :
  (forall a, In a arts -> id_in (aid a) r = true \/ matching_authors a = []) ->
  filter_loop clock i r n arts = Ok (r, n).
Proof.
  revert i. induction arts as [|a rest IH]; intros i Hall; simpl; [reflexivity|].
  assert (IH' : filter_loop clock (S i) r n rest = Ok (r, n))
    by (apply IH; intros; apply Hall; right; assumption).
  destruct (id_in (aid a) r) eqn:Hin; [exact IH'|].
  destruct (Hall a (or_introl eq_refl)) as [H | H]; [congruence|].
  rewrite H. exact IH'.
Qed.

(** C2: running the filter a second time over the same stream, starting from
    the table the first run produced, accepts no article and leaves the
    table as it is. *)
Theorem rerun_accepts_nothing clock clock' (records0 : table) (articles : list article)
    (records1 : table) new1
    (H : filter_step clock records0 articles = Ok (records1, new1)) :
  filter_step clock' records1 articles = Ok (records1, []).
Proof.
  unfold filter_step in *.
  destruct (filter_loop_effect _ _ _ _ _ _ _ H) as (_ & _ & _ & _ & _ & Hall).
  apply filter_loop_nothing_new. exact Hall.
Qed.

Lemma rerun_accepts_nothing_witness :
  exists records1 new1,
    filter_step sample_clock empty_records sample_stream = Ok (records1, new1) /\
    List.length new1 = 1%nat /\
    filter_step sample_clock records1 sample_stream = Ok (records1, []).
Proof.
  do 2 eexists. split; [reflexivity|]. split; [reflexivity|].
  eapply (rerun_accepts_nothing sample_clock sample_clock empty_records sample_stream).
  reflexivity.
Defined.

(** C10: within one run the accepted ids are pairwise distinct and absent
    from the loaded table, the saved table is the loaded one with one row
    per accepted article appended, so its ids are distinct whenever the
    loaded table's were. *)
Theorem accepted_ids_once clock (records0 : table) (articles : list article)
    (records1 : table) new1
    (H : filter_step clock records0 articles = Ok (records1, new1)) :
  NoDup (map new_id new1) /\
  Forall (fun x => id_in (new_id x) records0 = false) new1 /\
  map row_id (rows records1) = (map row_id (rows records0) ++ map new_id new1)%list /\
  (NoDup (map row_id (rows records0)) -> NoDup (map row_id (rows records1))).
Proof.
  unfold filter_step in H.
  destruct (filter_loop_effect _ _ _ _ _ _ _ H) as (extra & En & Er & Hnd & Hfresh & _).
  simpl in En. subst extra.
  split; [exact Hnd|]. split; [exact Hfresh|]. split; [exact Er|].
  intros H0. rewrite Er. apply NoDup_app; auto.
  intros z Hz Hz'. apply in_map_iff in Hz'. destruct Hz' as (x & <- & Hx).
  rewrite Forall_forall in Hfresh. specialize (Hfresh x Hx).
  apply id_in_iff in Hz. congruence.
Qed.

Lemma accepted_ids_once_witness :
  exists records1 new1,
    filter_step sample_clock empty_records sample_stream = Ok (records1, new1) /\
    map new_id new1 = [101%Z] /\
    NoDup (map row_id (rows records1)).
Proof.
  do 2 eexists. split; [reflexivity|]. split; [reflexivity|].
  eapply (accepted_ids_once sample_clock empty_records sample_stream); [reflexivity|].
  constructor.
Defined.

(** ** Summary formatter *)

Lemma length_combine_eq {A B} (l1 : list A) (l2 : list B) :
  List.length l1 = List.length l2 -> List.length (combine l1 l2) = List.length l1.
Proof. intros H. rewrite length_combine, H. apply Nat.min_id. Qed.

Lemma nth_error_combine_some {A B} (l1 : list A) (l2 : list B) i x y :
  nth_error l1 i = Some x -> nth_error l2 i = Some y -> nth_error (combine l1 l2) i = Some (x, y).
Proof.
  revert l2 i; induction l1 as [|h t IH]; intros [|h' t'] [|i] H1 H2; simpl in *;
    try discriminate; auto.
  injection H1 as ->; injection H2 as ->; reflexivity.
Qed.

Lemma map_snd_combine {A B} (l1 : list A) (l2 : list B) :
  List.length l1 = List.length l2 -> map snd (combine l1 l2) = l2.
Proof.
  revert l2; induction l1 as [|h t IH]; intros [|h' t'] H; simpl in *; try discriminate; auto.
  f_equal. apply IH. lia.
Qed.

(** C6: with at most 50 authors (and the parallel affiliation list ADS
    delivers), the author string joins exactly one entry per author, in
    order: the upper-cased name between asterisks when the author matches,
    the name as is otherwise. *)
Theorem short_author_list (a : article)
    (Hlen : List.length (aff a) = List.length (author a))
    (Hshort : (List.length (author a) <= 50)%nat) :
  exists entries,
    formatted_authors a 50 = Py.join "; " entries /\
    List.length entries = List.length (author a) /\
    (forall i au af, nth_error (author a) i = Some au -> nth_error (aff a) i = Some af ->
       nth_error entries i =
         Some (if is_matching_author au af then "*" ++ Py.upper au ++ "*" else au)).
Proof.
  exists (short_authors a). split; [|split].
  - unfold formatted_authors. replace (50 <? List.length (author a))%nat with false; [reflexivity|].
    symmetry. apply Nat.ltb_ge. exact Hshort.
  - unfold short_authors. rewrite length_map. apply length_combine_eq. auto.
  - intros i au af H1 H2. unfold short_authors.
    rewrite nth_error_map, (nth_error_combine_some _ _ _ _ _ H1 H2). reflexivity.
Qed.

Lemma short_author_list_witness :
  formatted_authors (sample_article 101 ["Casey, A."; "Lee, B."] [rsaa_aff; other_aff]) 50
    = Py.join "; " ["*CASEY, A.*"; "Lee, B."] /\
  List.length ["*CASEY, A.*"; "Lee, B."] = 2%nat.
Proof.
  destruct (short_author_list (sample_article 101 ["Casey, A."; "Lee, B."] [rsaa_aff; other_aff])
              eq_refl ltac:(simpl; lia)) as (entries & E & L & N).
  assert (Hent : entries = ["*CASEY, A.*"; "Lee, B."]).
  { destruct entries as [|e0 [|e1 [|e2 r]]]; simpl in L; try discriminate.
    pose proof (N 0%nat _ _ eq_refl eq_refl) as N0.
    pose proof (N 1%nat _ _ eq_refl eq_refl) as N1.
    simpl in N0, N1. vm_compute in N0, N1.
    injection N0 as ->. injection N1 as ->. reflexivity. }
  subst entries. split; [exact E | reflexivity].
Defined.

(** One step of the long-list loop past the first author, read against
    [shown_rest]: the state [(skip, total_skip, authors)] after the loop,
    with the final [et al.] step applied, is [authors] followed by what the
    spec reading shows, and [total_skip] grows by the unmatched authors. *)
Lemma long_fold (xs : list (nat * (string * string))) (skip ts : nat) (acc : list string) :
  Forall (fun x => (1 <= fst x)%nat) xs ->
  let '(skip', ts', acc') := fold_left long_step xs (skip, ts, acc) in
  (if (0 <? skip')%nat then acc' ++ ["et al."] else acc')%list
    = (acc ++ shown_rest (0 <? skip)%nat (map snd xs))%list /\
  (ts' + count_matching (map snd xs) = ts + List.length xs)%nat.
Proof.
  revert skip ts acc; induction xs as [|[j [au af]] xs IH]; intros skip ts acc Hj; simpl.
  - split; [|unfold count_matching; simpl; lia].
    destruct (0 <? skip)%nat; simpl; [reflexivity | now rewrite app_nil_r].
  - inversion Hj as [|? ? Hj0 Hjs]; subst. simpl in Hj0.
    replace (j <? 1)%nat with false by (symmetry; apply Nat.ltb_ge; lia).
    unfold count_matching; simpl.
    destruct (matching_author au af) as [meta|] eqn:Hm.
    + assert (Hi : is_matching_author au af = true)
        by (unfold is_matching_author; rewrite Hm; reflexivity).
      rewrite Hi. destruct (0 <? skip)%nat eqn:Hs.
      * specialize (IH 0%nat ts ((acc ++ ["..."]) ++ [format_author au af])%list Hjs).
        destruct (fold_left long_step xs (0%nat, ts, ((acc ++ ["..."]) ++ [format_author au af])%list))
          as [[skip' ts'] acc'].
        destruct IH as [IH1 IH2]. split.
        -- rewrite IH1. simpl. rewrite <- !app_assoc. reflexivity.
        -- unfold count_matching in IH2. simpl. lia.
      * specialize (IH skip ts (acc ++ [format_author au af])%list Hjs).
        destruct (fold_left long_step xs (skip, ts, (acc ++ [format_author au af])%list))
          as [[skip' ts'] acc'].
        destruct IH as [IH1 IH2]. rewrite Hs in IH1. split.
        -- rewrite IH1. simpl. rewrite <- !app_assoc. reflexivity.
        -- unfold count_matching in IH2. simpl. lia.
    + assert (Hi : is_matching_author au af = false)
        by (unfold is_matching_author; rewrite Hm; reflexivity).
      rewrite Hi. specialize (IH (S skip) (S ts) acc Hjs).
      destruct (fold_left long_step xs (S skip, S ts, acc)) as [[skip' ts'] acc'].
      destruct IH as [IH1 IH2]. split.
      * rewrite IH1. reflexivity.
      * unfold count_matching in IH2. lia.
Qed.

Lemma Forall_combine_seq_ge {B} (start : nat) (l : list B) :
  Forall (fun x => (start <= fst x)%nat) (combine (seq start (List.length l)) l).
Proof.
  apply Forall_forall. intros [j y] Hin. simpl.
  apply in_combine_l, in_seq in Hin. lia.
Qed.

(** C4 (counterexample): 51 authors, only the last one at RSAA.  The author
    string has no trailing "et al." (the code appends it only when the list
    ends in skipped authors), while the omitted count is still given. *)
Lemma long_author_list_no_etal_cex :
  (50 < List.length (author long51))%nat /\
  formatted_authors long51 50 =
    "Author 0; ...; *AUTHOR 50* (49 authors not shown)" /\
  Py.contains "et al." (formatted_authors long51 50) = false.
Proof.
  split; [apply Nat.ltb_lt; reflexivity|]. vm_compute. split; reflexivity.
Qed.

(** C4 (amended): with more than 50 authors (and parallel affiliation
    lists), the author string is the first author (formatted, matched or
    not), then, over the remaining authors, exactly the matched ones
    (formatted) in order, with one ["..."] before a matched author that
    follows a run of skipped authors and one ["et al."] when the list ends
    with a run of skipped authors, all joined by ["; "]; it is always
    followed by [" (k authors not shown)"] with [k] the number of authors
    minus the number shown. *)
Theorem long_author_list (a : article)
    (Hlen : List.length (aff a) = List.length (author a))
    (Hlong : (50 < List.length (author a))%nat) :
  exists au0 af0 rest,
    combine (author a) (aff a) = (au0, af0) :: rest /\
    formatted_authors a 50 =
      Py.join "; " (format_author au0 af0 :: shown_rest false rest) ++ " (" ++
      Py.str_nat (List.length (author a) - (1 + count_matching rest)) ++ " authors not shown)".
Proof.
  unfold formatted_authors, long_authors, long_loop.
  destruct (author a) as [|au0 aus] eqn:Ea; simpl in Hlong; [lia|].
  destruct (aff a) as [|af0 afs] eqn:Ef; simpl in Hlen; [lia|].
  exists au0, af0, (combine aus afs). split; [reflexivity|].
  replace (50 <? List.length (au0 :: aus))%nat with true by (symmetry; apply Nat.ltb_lt; exact Hlong).
  unfold enumerate. simpl combine. simpl List.length.
  assert (Hl : List.length (combine aus afs) = List.length aus)
    by (apply length_combine_eq; lia).
  rewrite <- Hl. simpl seq. simpl fold_left.
  pose proof (long_fold (combine (seq 1 (List.length (combine aus afs))) (combine aus afs))
                0 0 [format_author au0 af0] (Forall_combine_seq_ge 1 _)) as HF.
  destruct (fold_left long_step _ _) as [[skip' ts'] acc'].
  destruct HF as [H1 H2].
  rewrite map_snd_combine in H1, H2 by (rewrite length_seq; reflexivity).
  rewrite length_combine, length_seq, Nat.min_id in H2.
  simpl in H1. rewrite H1. f_equal. f_equal. f_equal. f_equal. lia.
Qed.

Lemma long_author_list_witness :
  formatted_authors long60 50 =
    "*AUTHOR 0*; ...; *AUTHOR 5*; ...; *AUTHOR 12*; et al. (57 authors not shown)" /\
  exists au0 af0 rest,
    combine (author long60) (aff long60) = (au0, af0) :: rest /\
    formatted_authors long60 50 =
      Py.join "; " (format_author au0 af0 :: shown_rest false rest) ++ " (" ++
      Py.str_nat (List.length (author long60) - (1 + count_matching rest)) ++ " authors not shown)".
Proof.
  split; [vm_compute; reflexivity|].
  apply long_author_list; [reflexivity | apply Nat.ltb_lt; reflexivity].
Defined.

(** C5 (counterexample): a present but empty [page] list is not tolerated:
    [article.page[0]] raises [IndexError]. *)
Lemma formatted_summary_empty_page_cex :
  formatted_summary
    (mk_article 301 ["Casey, A."] [rsaa_aff] ["Paper"] "2024ApJ...900..301C" "ApJ"
                None None (Some []) "2024-01-00")
  = Raise IndexError.
Proof. vm_compute. reflexivity. Qed.

(** C5 (the part that holds): unless [page] is an empty list, [formatted_summary]
    returns without error; the volume is ["in press"] when absent, the issue
    is empty when absent and [", " ++ issue] otherwise, the page is empty
    when absent or when its first entry is null and [", " ++ page[0]]
    otherwise, the year is the first ['-']-separated token of the
    publication date and the URL is the ADS abstract URL of the bibcode. *)
Theorem formatted_summary_sentinels (a : article) (Hpage : page a <> Some []) :
  exists k,
    formatted_summary a = Ok k /\
    k_formatted_authors k = formatted_authors a 50 /\
    k_formatted_volume k = match volume a with None => "in press" | Some v => v end /\
    k_formatted_issue k = match issue a with None => "" | Some i => ", " ++ i end /\
    k_formatted_page k = match page a with Some (Some p0 :: _) => ", " ++ p0 | _ => "" end /\
    k_formatted_year k = nth 0 (Py.split_char "-"%char (pubdate a)) "" /\
    k_formatted_url k = "https://ui.adsabs.harvard.edu/abs/" ++ bibcode a.
Proof.
  unfold formatted_summary, formatted_summary_n.
  assert (Hy : first_or_empty (Py.split_char "-"%char (pubdate a))
               = nth 0 (Py.split_char "-"%char (pubdate a)) "")
    by (destruct (Py.split_char "-"%char (pubdate a)); reflexivity).
  destruct (page a) as [[|[p0|] ps]|] eqn:Ep; simpl;
    [congruence | | |]; eexists; (split; [reflexivity|]); simpl; auto 7.
Qed.

Lemma formatted_summary_sentinels_witness :
  page (sample_article 301 ["Casey, A."] [rsaa_aff]) <> Some [] /\
  exists k,
    formatted_summary (sample_article 301 ["Casey, A."] [rsaa_aff]) = Ok k /\
    k_formatted_volume k = "900" /\ k_formatted_issue k = ", 2" /\
    k_formatted_page k = ", L301" /\ k_formatted_year k = "2024".
Proof.
  split; [simpl; discriminate|].
  destruct (formatted_summary_sentinels (sample_article 301 ["Casey, A."] [rsaa_aff])
              ltac:(simpl; discriminate)) as (k & E & _ & Hv & Hi & Hp & Hy & _).
  exists k. split; [exact E|]. rewrite Hv, Hi, Hp, Hy. repeat split.
Defined.

(** ** Record store loading *)

(** C7: without a file, [load_records] returns the empty table with the
    columns [id, updated, title, bibcode, pubdate] typed [i4, S26, S500,
    S100, S100]; with a file it returns the latin-1 read when that succeeds
    and otherwise whatever the utf-8 read gives, so a file neither read can
    parse makes it raise the utf-8 error. *)
Theorem load_records_contract (read : encoding -> result table) :
  load_records false read = Ok empty_records /\
  names empty_records = ["id"; "updated"; "title"; "bibcode"; "pubdate"] /\
  dtypes empty_records = [I4; Sbytes 26; Sbytes 500; Sbytes 100; Sbytes 100] /\
  rows empty_records = [] /\
  (forall t, read Latin1 = Ok t -> load_records true read = Ok t) /\
  (forall e, read Latin1 = Raise e -> load_records true read = read Utf8) /\
  (forall e1 e2, read Latin1 = Raise e1 -> read Utf8 = Raise e2 ->
     load_records true read = Raise e2).
Proof.
  repeat split; intros; unfold load_records;
    repeat match goal with H : read _ = _ |- _ => rewrite H end; reflexivity.
Qed.

(** ** Query window *)

(** C8: without [(year, month)] arguments the window is the month before
    the current one: December of the previous year in January, the previous
    month of the same year otherwise. *)
Theorem default_window (argv : list string) (int_of : string -> result Z) (y m : Z)
    (Hargv : (List.length argv < 3)%nat) (Hm : (1 <= m <= 12)%Z) :
  resolve_window argv int_of y m = Ok (if (m =? 1)%Z then ((y - 1)%Z, 12%Z) else (y, (m - 1)%Z)).
Proof.
  unfold resolve_window.
  replace (3 <=? List.length argv)%nat with false by (symmetry; apply Nat.leb_gt; lia).
  destruct (m =? 1)%Z eqn:E.
  - apply Z.eqb_eq in E. subst. reflexivity.
  - apply Z.eqb_neq in E.
    replace (m - 1 <? 1)%Z with false by (symmetry; apply Z.ltb_ge; lia). reflexivity.
Qed.

Lemma default_window_witness :
  resolve_window ["ads-papers-rsaa.py"] (fun _ => Raise ValueError) 2025 1 = Ok (2024%Z, 12%Z) /\
  resolve_window ["ads-papers-rsaa.py"] (fun _ => Raise ValueError) 2025 7 = Ok (2025%Z, 6%Z).
Proof.
  split.
  - apply (default_window ["ads-papers-rsaa.py"] (fun _ => Raise ValueError) 2025 1);
      [simpl; lia | lia].
  - apply (default_window ["ads-papers-rsaa.py"] (fun _ => Raise ValueError) 2025 7);
      [simpl; lia | lia].
Defined.

(** ** The run *)

Lemma string_app_cancel_l (h s1 s2 : string) : h ++ s1 = h ++ s2 -> s1 = s2.
Proof. induction h as [|c h IH]; simpl; [auto | intros H; injection H; auto]. Qed.

Lemma summary_path_not_records (here : string) (year month : Z) :
  summary_path here year month <> records_path here.
Proof.
  unfold summary_path, records_path. intros H.
  apply string_app_cancel_l in H. simpl in H. discriminate.
Qed.

Lemma apply_events_other (fs : string -> option file) (evs : list event) (p : string) :
  Forall (fun ev => event_path ev <> p) evs -> apply_events fs evs p = fs p.
Proof.
  unfold apply_events. revert fs. induction evs as [|ev evs IH]; intros fs H; simpl; [reflexivity|].
  inversion H as [|? ? Hev Hevs]; subst. rewrite IH by exact Hevs.
  destruct ev as [q t | q s]; simpl in *;
    destruct (String.eqb p q) eqn:E; auto; apply String.eqb_eq in E; congruence.
Qed.

(** C9: once the records are loaded, the window resolved and the query
    answered, a run whose filter succeeds first writes the updated table to
    the record file, replacing whatever was there, and nothing written
    afterwards touches that file; when no article was accepted the run then
    ends with [sys.exit()] and writes nothing else, so no digest file
    appears. *)
Theorem run_saves_records (here : string) (argv : list string) int_of (ny nm : Z)
    (exists_ : bool) read search clock (records : table) (year month : Z)
    (articles : list article) (records1 : table) new_articles
    (Hload : load_records exists_ read = Ok records)
    (Hwin : resolve_window argv int_of ny nm = Ok (year, month))
    (Hdate : valid_date year month = true)
    (Hsearch : search year month = Ok articles)
    (Hfilter : filter_step clock records articles = Ok (records1, new_articles)) :
  exists evs out,
    run here argv int_of ny nm exists_ read search clock
      = (WriteRecords (records_path here) records1 :: evs, out) /\
    (forall fs, apply_events fs (WriteRecords (records_path here) records1 :: evs)
                  (records_path here) = Some (FRecords records1)) /\
    (new_articles = [] ->
       evs = [] /\ out = Exited /\
       forall fs p, p <> records_path here ->
         apply_events fs (WriteRecords (records_path here) records1 :: evs) p = fs p).
Proof.
  unfold run. rewrite Hload, Hwin, Hdate, Hsearch, Hfilter. simpl negb. cbv iota beta.
  assert (Hsaved : forall evs fs,
            Forall (fun ev => event_path ev <> records_path here) evs ->
            apply_events fs (WriteRecords (records_path here) records1 :: evs) (records_path here)
            = Some (FRecords records1)).
  { intros evs fs H.
    pose proof (apply_events_other (apply_event fs (WriteRecords (records_path here) records1))
                  evs (records_path here) H) as A.
    unfold apply_events in *. cbn [fold_left]. rewrite A. simpl.
    rewrite String.eqb_refl. reflexivity. }
  destruct new_articles as [|x xs].
  - exists [], Exited. split; [reflexivity|]. split.
    + intros fs. apply Hsaved. constructor.
    + intros _. split; [reflexivity|]. split; [reflexivity|].
      intros fs p Hp. simpl. destruct (String.eqb p (records_path here)) eqn:E; [|reflexivity].
      apply String.eqb_eq in E. contradiction.
  - destruct (NpArgsort.argsort (author_index (x :: xs))) as [idx|];
      [destruct (reorder (x :: xs) idx) as [ordered|e];
        [destruct (render_from 1 ordered) as [lines|e]|]|];
      eexists; eexists; (split; [reflexivity|]);
      (split; [intros fs; apply Hsaved; repeat constructor; simpl;
               try apply summary_path_not_records | intros H; discriminate H]).
Qed.

Lemma run_saves_records_witness :
  exists evs out,
    run "/srv/rsaa" ["ads-papers-rsaa.py"] (fun _ => Raise ValueError) 2025 1 false
        (fun _ => Raise (ReadError "unused"))
        (fun _ _ => Ok [sample_article 102 ["Smith, C."] [other_aff]]) sample_clock
      = (WriteRecords (records_path "/srv/rsaa") empty_records :: evs, out) /\
    evs = [] /\ out = Exited.
Proof.
  destruct (run_saves_records "/srv/rsaa" ["ads-papers-rsaa.py"] (fun _ => Raise ValueError) 2025 1 false
              (fun _ => Raise (ReadError "unused"))
              (fun _ _ => Ok [sample_article 102 ["Smith, C."] [other_aff]]) sample_clock
              empty_records 2024 12 [sample_article 102 ["Smith, C."] [other_aff]] empty_records []
              eq_refl eq_refl eq_refl eq_refl ltac:(vm_compute; reflexivity))
    as (evs & out & E & _ & H).
  destruct (H eq_refl) as (-> & -> & _).
  exists [], Exited. split; [exact E | split; reflexivity].
Defined.

(** ** Ordering of the digest *)

Example argsort_ex : NpArgsort.argsort [3; 0; 7]%Z = Some [1; 0; 2]%nat.
Proof. reflexivity. Qed.

Lemma sorted_keys_Sorted (ks : list Z) : sorted_keys ks = true -> Sorted Z.le ks.
Proof.
  induction ks as [|x [|y ks] IH]; intros H; [constructor | repeat constructor |].
  simpl in H. apply andb_prop in H as [Hxy Hrest].
  constructor; [apply IH; exact Hrest|]. constructor. apply Z.leb_le. exact Hxy.
Qed.

Lemma is_perm_spec (idx : list nat) (n : nat) :
  is_perm idx n = true -> Permutation (seq 0 n) idx /\ (forall i, In i idx -> (i < n)%nat).
Proof.
  unfold is_perm. intros H. apply andb_prop in H as [Hl Hall].
  apply Nat.eqb_eq in Hl. rewrite forallb_forall in Hall.
  assert (P : Permutation (seq 0 n) idx).
  { apply NoDup_Permutation_bis; [apply seq_NoDup | rewrite length_seq; lia |].
    intros i Hi. specialize (Hall i Hi). apply existsb_exists in Hall.
    destruct Hall as (j & Hj & E). apply Nat.eqb_eq in E. subst. exact Hj. }
  split; [exact P|]. intros i Hi. apply (Permutation_in _ (Permutation_sym P)), in_seq in Hi. lia.
Qed.

Lemma reorder_map {A} (xs : list A) (idx : list nat) (d : A) :
  (forall i, In i idx -> (i < List.length xs)%nat) ->
  reorder xs idx = Ok (map (fun i => nth i xs d) idx).
Proof.
  induction idx as [|i idx IH]; intros H; simpl; [reflexivity|].
  rewrite (nth_error_nth' xs d (H i (or_introl eq_refl))).
  rewrite IH by (intros; apply H; right; assumption). reflexivity.
Qed.

Lemma map_nth_seq_self {A} (xs : list A) (d : A) :
  map (fun i => nth i xs d) (seq 0 (List.length xs)) = xs.
Proof.
  induction xs as [|x xs IH]; [reflexivity|].
  cbn [List.length seq]. rewrite <- seq_shift. cbn [map]. rewrite map_map.
  f_equal. exact IH.
Qed.

Lemma render_from_ranks (c : nat) (xs : list (article * list author_match)) (lines : list string) :
  render_from c xs = Ok lines ->
  List.length lines = List.length xs /\
  (forall k a ma line, nth_error xs k = Some (a, ma) -> nth_error lines k = Some line ->
     exists kw, formatted_summary a = Ok kw /\ render_line (c + k) kw = Ok line).
Proof.
  revert c lines. induction xs as [|[a ma] xs IH]; intros c lines H; simpl in H.
  - injection H as <-. split; [reflexivity|]. intros [|k]; discriminate.
  - destruct (formatted_summary a) as [kw|e] eqn:Ekw; [|discriminate].
    destruct (render_line c kw) as [line|e] eqn:El; [|discriminate].
    destruct (render_from (S c) xs) as [ls|e] eqn:Er; [|discriminate].
    injection H as <-. destruct (IH _ _ Er) as [IHl IHn].
    split; [simpl; rewrite IHl; reflexivity|].
    intros [|k] a' ma' line' Hx Hline; simpl in Hx, Hline.
    + injection Hx as <- <-. injection Hline as <-. exists kw. rewrite Nat.add_0_r. auto.
    + destruct (IHn k a' ma' line' Hx Hline) as (kw' & E1 & E2).
      exists kw'. split; [exact E1|]. rewrite <- E2. f_equal. lia.
Qed.

(** C3 (counterexample): eighteen accepted articles all led by an RSAA
    author tie on index 0; numpy's default quicksort partitions the
    eighteen positions and the digest lists them as 1, 16, 15, ..., 2, 17,
    18 instead of in arrival order. *)
Lemma digest_ties_not_in_arrival_order_cex :
  exists records1 new_articles idx ordered,
    filter_step sample_clock empty_records stream_18_first = Ok (records1, new_articles) /\
    map new_id new_articles = map Z.of_nat (seq 1 18) /\
    author_index new_articles = repeat 0%Z 18 /\
    NpArgsort.argsort (author_index new_articles) = Some idx /\
    reorder new_articles idx = Ok ordered /\
    map new_id ordered = [1; 16; 15; 14; 13; 12; 11; 10; 9; 8; 7; 6; 5; 4; 3; 2; 17; 18]%Z.
Proof.
  do 4 eexists.
  split; [vm_compute; reflexivity|].
  split; [reflexivity|]. split; [reflexivity|].
  split; [vm_compute; reflexivity|]. split; [vm_compute; reflexivity|].
  reflexivity.
Qed.

(** C3 (amended): the digest lists the accepted articles in the order of the
    positions [np.argsort] returns for their first-matching-author indices;
    for any result meeting numpy's contract (a permutation of the positions
    under which the indices ascend) the digest holds every accepted article
    once, in ascending order of that index, and its [k]-th line (from 0)
    carries rank [k + 1].  The relative order of tied articles is whatever
    the sort leaves: the default quicksort is not stable. *)
Theorem digest_order (new_articles : list (article * list author_match)) (idx : list nat)
    (Hidx : argsort_contract (author_index new_articles) idx = true) :
  exists ordered,
    reorder new_articles idx = Ok ordered /\
    Permutation ordered new_articles /\
    Sorted Z.le (author_index ordered) /\
    (forall lines, render_from 1 ordered = Ok lines ->
       List.length lines = List.length ordered /\
       (forall k a ma line, nth_error ordered k = Some (a, ma) -> nth_error lines k = Some line ->
          exists kw, formatted_summary a = Ok kw /\ render_line (S k) kw = Ok line)).
Proof.
  unfold argsort_contract in Hidx. apply andb_prop in Hidx as [Hp Hs].
  unfold author_index at 1 in Hp. rewrite length_map in Hp.
  destruct (is_perm_spec _ _ Hp) as [P Hbound].
  destruct new_articles as [|d rest].
  - destruct idx as [|i idx]; [|specialize (Hbound i (or_introl eq_refl)); simpl in Hbound; lia].
    exists []. split; [reflexivity|]. split; [constructor|]. split; [constructor|].
    intros ls H. simpl in H. injection H as <-.
    split; [reflexivity|]. intros [|k]; discriminate.
  - set (new_articles := d :: rest) in *.
    exists (map (fun i => nth i new_articles d) idx).
    split; [apply reorder_map; exact Hbound|].
    split.
    + eapply Permutation_trans; [apply Permutation_map, Permutation_sym, P|].
      rewrite map_nth_seq_self. reflexivity.
    + split.
      * apply sorted_keys_Sorted. rewrite <- Hs. f_equal.
        unfold author_index. rewrite !map_map. apply map_ext_in. intros i Hi.
        specialize (Hbound i Hi).
        set (g := fun x : article * list author_match =>
                    let '(_, ma) := x in
                    match ma with (i0, _) :: _ => Z.of_nat i0 | [] => 1000%Z end).
        rewrite (nth_indep _ 0%Z (g d)) by (rewrite length_map; exact Hbound).
        rewrite map_nth. reflexivity.
      * intros lines H. destruct (render_from_ranks 1 _ _ H) as [Hl Hn].
        split; [exact Hl|]. intros k a ma line Hx Hline.
        exact (Hn k a ma line Hx Hline).
Qed.

Lemma digest_order_witness :
  author_index new_3_0_7 = [3; 0; 7]%Z /\
  NpArgsort.argsort (author_index new_3_0_7) = Some [1; 0; 2]%nat /\
  exists ordered,
    reorder new_3_0_7 [1; 0; 2]%nat = Ok ordered /\
    author_index ordered = [0; 3; 7]%Z /\
    map new_id ordered = [402; 401; 403]%Z.
Proof.
  split; [vm_compute; reflexivity|]. split; [vm_compute; reflexivity|].
  destruct (digest_order new_3_0_7 [1; 0; 2]%nat ltac:(vm_compute; reflexivity))
    as (ordered & E & _ & _ & _).
  exists ordered. split; [exact E|]. vm_compute in E. injection E as <-. split; reflexivity.
Defined.

(** ** Filtering, querying and rendering, further properties *)

Lemma nth_error_combine_iff {A B} (l1 : list A) (l2 : list B) i x y :
  nth_error (combine l1 l2) i = Some (x, y) <-> nth_error l1 i = Some x /\ nth_error l2 i = Some y.
Proof.
  revert l2 i; induction l1 as [|h t IH]; intros [|h' t'] [|i]; simpl; try apply IH.
  all: split; [intros H | intros [H1 H2]]; try discriminate; try congruence.
  injection H as -> ->; auto.
Qed.

Lemma matching_author_some_shape (au af : string) m :
  matching_author au af = Some m -> exists j, m = (j, au, af).
Proof.
  unfold matching_author. intros H. apply matching_loop_some in H.
  destruct H as (k & _ & -> & _). eexists; reflexivity.
Qed.

Lemma in_matching_enum (k : nat) (l : list (string * string)) (i : nat) m :
  In (i, m) (flat_map (fun '(i, (au, af)) =>
                         match matching_author au af with
                         | Some meta => [(i, meta)]
                         | None => []
                         end) (combine (seq k (List.length l)) l))
  <-> (k <= i)%nat /\ exists au af, nth_error l (i - k) = Some (au, af) /\
                                  matching_author au af = Some m.
Proof.
  revert k. induction l as [|[au0 af0] l IH]; intros k; simpl.
  - split; [intros []|]. intros (_ & au & af & H & _). destruct (i - k)%nat; discriminate.
  - rewrite in_app_iff, IH.
    destruct (Nat.eq_dec i k) as [->|Hne].
    + rewrite Nat.sub_diag. simpl. split.
      * intros [H|(Hle & _)]; [|lia].
        destruct (matching_author au0 af0) eqn:E; [|destruct H].
        destruct H as [H|[]]. injection H as <-. split; [lia|]. eauto.
      * intros (_ & au & af & H & Hm). injection H as <- <-. left. rewrite Hm. left. reflexivity.
    + destruct (Nat.le_gt_cases k i) as [Hki|Hik].
      2:{ split; [|intros (Hle & _); lia].
          intros [H|(Hle & _)]; [|lia].
          destruct (matching_author au0 af0); [|destruct H].
          destruct H as [H|[]]. injection H as H _. congruence. }
      replace (i - k)%nat with (S (i - S k)) by lia.
      split.
      * intros [H|(Hle & H)].
        -- destruct (matching_author au0 af0); [|destruct H].
           destruct H as [H|[]]. injection H as H _. congruence.
        -- split; [lia|]. exact H.
      * intros (Hle & H). right. split; [lia|]. exact H.
Qed.

Lemma matching_enum_sorted (k : nat) (l : list (string * string)) :
  StronglySorted lt
    (map fst (flat_map (fun '(i, (au, af)) =>
                          match matching_author au af with
                          | Some meta => [(i, meta)]
                          | None => []
                          end) (combine (seq k (List.length l)) l))).
Proof.
  revert k. induction l as [|[au0 af0] l IH]; intros k; simpl; [constructor|].
  destruct (matching_author au0 af0) as [meta|]; simpl; [|apply IH].
  constructor; [apply IH|]. rewrite Forall_forall. intros i Hi.
  apply in_map_iff in Hi. destruct Hi as ([i' m] & <- & Hi).
  apply in_matching_enum in Hi. simpl. lia.
Qed.

Lemma matching_authors_in (a : article) (i j : nat) (au af : string) :
  In (i, (j, au, af)) (matching_authors a) <->
  nth_error (author a) i = Some au /\ nth_error (aff a) i = Some af /\
  matching_author au af = Some (j, au, af).
Proof.
  unfold matching_authors, enumerate. rewrite in_matching_enum, Nat.sub_0_r.
  split.
  - intros (_ & au' & af' & Hn & Hm).
    destruct (matching_author_some_shape _ _ _ Hm) as (j' & E). injection E as -> <- <-.
    apply nth_error_combine_iff in Hn. destruct Hn. auto.
  - intros (H1 & H2 & Hm). split; [lia|]. exists au, af. split; [|exact Hm].
    apply nth_error_combine_iff. auto.
Qed.

Lemma matching_authors_sorted (a : article) :
  StronglySorted lt (map fst (matching_authors a)).
Proof. apply matching_enum_sorted. Qed.

(** Matched authors: [matching_authors a] lists [(i, (j, au, af))] exactly for
    the positions [i] whose author [au] and affiliation [af] match, with [j]
    the sub-affiliation index [matching_author] reports; the positions
    ascend. *)
Theorem matching_authors_entries (a : article) :
  (forall i j au af,
     In (i, (j, au, af)) (matching_authors a) <->
     nth_error (author a) i = Some au /\ nth_error (aff a) i = Some af /\
     matching_author au af = Some (j, au, af)) /\
  StronglySorted lt (map fst (matching_authors a)).
Proof. split; [apply matching_authors_in | apply matching_authors_sorted]. Qed.

Lemma filter_loop_accepted clock (i : nat) (r : table) n (arts : list article) r' n' :
  filter_loop clock i r n arts = Ok (r', n') ->
  exists extra added,
    n' = (n ++ extra)%list /\ subseq (map fst extra) arts /\
    Forall (fun x => snd x = matching_authors (fst x) /\ snd x <> []) extra /\
    names r' = names r /\ dtypes r' = dtypes r /\ rows r' = (rows r ++ added)%list /\
    Forall2 (fun row x => exists k, prepare_record (clock k) (fst x) = Ok row) added extra.
Proof.
  revert i r n. induction arts as [|a rest IH]; intros i r n H; simpl in H.
  - injection H as <- <-. exists [], []. rewrite !app_nil_r.
    repeat split; auto; constructor.
  - destruct (id_in (aid a) r).
    + destruct (IH _ _ _ H) as (extra & added & En & Hsub & Hma & Hnm & Hdt & Hrows & Hrec).
      exists extra, added. repeat split; auto. apply subseq_skip; auto.
    + destruct (List.length (matching_authors a) =? 0)%nat eqn:Hl.
      * destruct (IH _ _ _ H) as (extra & added & En & Hsub & Hma & Hnm & Hdt & Hrows & Hrec).
        exists extra, added. repeat split; auto. apply subseq_skip; auto.
      * destruct (prepare_record (clock i) a) as [row|e] eqn:Hrow; [|discriminate].
        destruct (IH _ _ _ H) as (extra & added & En & Hsub & Hma & Hnm & Hdt & Hrows & Hrec).
        exists ((a, matching_authors a) :: extra), (row :: added).
        split; [rewrite En, <- app_assoc; reflexivity|].
        split; [simpl; apply subseq_take; auto|].
        split; [constructor; auto; split; auto; simpl; intros E; rewrite E in Hl; discriminate|].
        rewrite Hnm, Hdt, Hrows. simpl.
        split; [reflexivity|]. split; [reflexivity|]. split.
        -- rewrite <- app_assoc. reflexivity.
        -- constructor; eauto.
Qed.

Lemma filter_loop_raises_at clock (i : nat) (r : table) n (pre : list article) (a : article)
    (post : list article) :
  Forall (fun b => id_in (aid b) r = true \/ matching_authors b = []) pre ->
  id_in (aid a) r = false -> matching_authors a <> [] -> title a = [] ->
  filter_loop clock i r n (pre ++ a :: post)%list = Raise IndexError.
Proof.
  intros Hpre Hnew Hmatch Htitle. revert i n.
  induction Hpre as [|b pre Hb _ IH]; intros i n; simpl.
  - rewrite Hnew. destruct (List.length (matching_authors a) =? 0)%nat eqn:E.
    + apply Nat.eqb_eq, length_zero_iff_nil in E. contradiction.
    + unfold prepare_record. rewrite Htitle. reflexivity.
  - destruct (id_in (aid b) r) eqn:Hin; [apply IH|].
    destruct Hb as [Hb|Hb]; [discriminate|]. rewrite Hb. apply IH.
Qed.

(** The filter keeps the stream's order: the accepted articles are a
    subsequence of the stream, each paired with its non-empty
    [matching_authors] list; the table keeps its old rows in place and
    gains exactly one row per accepted article. *)
Theorem filter_step_accepted clock (records0 : table) (articles : list article)
    (records1 : table) new1
    (H : filter_step clock records0 articles = Ok (records1, new1)) :
  subseq (map fst new1) articles /\
  Forall (fun x => snd x = matching_authors (fst x) /\ snd x <> []) new1 /\
  exists added, rows records1 = (rows records0 ++ added)%list /\
    List.length added = List.length new1.
Proof.
  unfold filter_step in H.
  destruct (filter_loop_accepted _ _ _ _ _ _ _ H)
    as (extra & added & En & Hsub & Hma & _ & _ & Hrows & Hrec).
  simpl in En. subst extra. split; [exact Hsub|]. split; [exact Hma|].
  exists added. split; [exact Hrows|]. exact (Forall2_length Hrec).
Qed.

Lemma filter_step_accepted_witness :
  exists records1 new1,
    filter_step sample_clock empty_records sample_stream = Ok (records1, new1) /\
    subseq (map fst new1) sample_stream /\
    Forall (fun x => snd x = matching_authors (fst x) /\ snd x <> []) new1 /\
    exists added, rows records1 = (rows empty_records ++ added)%list /\
      List.length added = List.length new1.
Proof.
  do 2 eexists. split; [reflexivity|].
  eapply (filter_step_accepted sample_clock empty_records sample_stream). reflexivity.
Defined.

(** The first article of the stream that is not in the loaded table and
    has a matching author is where the filter first calls [prepare_record];
    when that article has no title, [article.title[0]] raises [IndexError]
    there, before any row is added. *)
Theorem filter_step_raises_at clock (records0 : table) (pre : list article) (a : article)
    (post : list article)
    (Hpre : Forall (fun b => id_in (aid b) records0 = true \/ matching_authors b = []) pre)
    (Hnew : id_in (aid a) records0 = false) (Hmatch : matching_authors a <> [])
    (Htitle : title a = []) :
  filter_step clock records0 (pre ++ a :: post)%list = Raise IndexError.
Proof. apply filter_loop_raises_at; assumption. Qed.

Lemma filter_step_raises_at_witness :
  filter_step sample_clock empty_records
    [mk_article 5 ["Smith, J."] [other_aff] ["Other"] "2024MNRAS.500....5" "MNRAS" None None None "2024-01-00";
     mk_article 7 ["Casey, A."] [rsaa_aff] [] "2024ApJ...900....7" "ApJ" None None None "2024-01-00"]
  = Raise IndexError.
Proof.
  apply (filter_step_raises_at sample_clock empty_records
           [mk_article 5 ["Smith, J."] [other_aff] ["Other"] "2024MNRAS.500....5" "MNRAS" None None None "2024-01-00"]
           (mk_article 7 ["Casey, A."] [rsaa_aff] [] "2024ApJ...900....7" "ApJ" None None None "2024-01-00")
           []).
  - constructor; [right; vm_compute; reflexivity | constructor].
  - vm_compute; reflexivity.
  - vm_compute; discriminate.
  - reflexivity.
Defined.

Lemma first_match_key (a : article) (i : nat) meta rest :
  matching_authors a = (i, meta) :: rest ->
  exists au af j, nth_error (author a) i = Some au /\ nth_error (aff a) i = Some af /\
    matching_author au af = Some (j, au, af) /\
    (forall i' au' af', (i' < i)%nat -> nth_error (author a) i' = Some au' ->
        nth_error (aff a) i' = Some af' -> matching_author au' af' = None).
Proof.
  intros E. destruct meta as [[j au] af].
  assert (Hin : In (i, (j, au, af)) (matching_authors a)) by (rewrite E; left; reflexivity).
  apply matching_authors_in in Hin. destruct Hin as (H1 & H2 & H3).
  exists au, af, j. split; [exact H1|]. split; [exact H2|]. split; [exact H3|].
  intros i' au' af' Hlt Ha Hf.
  destruct (matching_author au' af') as [m|] eqn:Hm; [|reflexivity]. exfalso.
  destruct (matching_author_some_shape _ _ _ Hm) as (j' & ->).
  assert (Hin' : In (i', (j', au', af')) (matching_authors a))
    by (apply matching_authors_in; auto).
  pose proof (matching_authors_sorted a) as S. rewrite E in S, Hin'. simpl in S.
  inversion S as [|? ? _ Hall]; subst. rewrite Forall_forall in Hall.
  destruct Hin' as [Heq|Hin']; [injection Heq as -> _; lia|].
  specialize (Hall i' (in_map fst _ _ Hin')). simpl in Hall. lia.
Qed.

(** The sort key of every accepted article is the position of its first
    matching author: that author and affiliation match and none before
    them does.  So the sentinel 1000 of [author_index] (for an article
    without matching author) is never used. *)
Theorem author_index_first_match clock (records0 : table) (articles : list article)
    (records1 : table) new1
    (H : filter_step clock records0 articles = Ok (records1, new1)) :
  Forall2 (fun x k => exists i au af j, k = Z.of_nat i /\
     nth_error (author (fst x)) i = Some au /\ nth_error (aff (fst x)) i = Some af /\
     matching_author au af = Some (j, au, af) /\
     (forall i' au' af', (i' < i)%nat -> nth_error (author (fst x)) i' = Some au' ->
        nth_error (aff (fst x)) i' = Some af' -> matching_author au' af' = None))
    new1 (author_index new1).
Proof.
  unfold filter_step in H.
  destruct (filter_loop_accepted _ _ _ _ _ _ _ H) as (extra & _ & En & _ & Hma & _).
  simpl in En; subst extra. clear H.
  induction new1 as [|[a ma] xs IHx]; simpl; constructor.
  - inversion Hma as [|? ? Hx _]; subst. simpl in Hx. destruct Hx as [-> Hne].
    destruct (matching_authors a) as [|[i meta] rest] eqn:E; [contradiction|].
    destruct (first_match_key a i meta rest E) as (au & af & j & H1 & H2 & H3 & H4).
    exists i, au, af, j. auto.
  - apply IHx. inversion Hma; auto.
Qed.

Lemma author_index_first_match_witness :
  exists records1 new1,
    filter_step sample_clock empty_records stream_3_0_7 = Ok (records1, new1) /\
    author_index new1 = [3; 0; 7]%Z /\
    Forall2 (fun x k => exists i au af j, k = Z.of_nat i /\
       nth_error (author (fst x)) i = Some au /\ nth_error (aff (fst x)) i = Some af /\
       matching_author au af = Some (j, au, af) /\
       (forall i' au' af', (i' < i)%nat -> nth_error (author (fst x)) i' = Some au' ->
          nth_error (aff (fst x)) i' = Some af' -> matching_author au' af' = None))
      new1 (author_index new1).
Proof.
  do 2 eexists. split; [vm_compute; reflexivity|]. split; [vm_compute; reflexivity|].
  eapply (author_index_first_match sample_clock empty_records stream_3_0_7).
  vm_compute; reflexivity.
Defined.

Lemma valid_date_false (year month : Z) :
  ~ (1 <= year <= 9999 /\ 1 <= month <= 12)%Z -> valid_date year month = false.
Proof.
  intros Hbad. unfold valid_date.
  destruct (1 <=? year)%Z eqn:E1; destruct (year <=? 9999)%Z eqn:E2;
    destruct (1 <=? month)%Z eqn:E3; destruct (month <=? 12)%Z eqn:E4; simpl; auto.
  exfalso. apply Hbad. apply Z.leb_le in E1, E2, E3, E4. lia.
Qed.

Lemma c_int_true (z : Z) : (-2147483648 <= z <= 2147483647)%Z -> c_int z = true.
Proof.
  intros H. unfold c_int. apply andb_true_iff. split; apply Z.leb_le; lia.
Qed.

(** A window outside the calendar whose year and month fit a C [int]
    (explicit arguments are not checked: month 13, say) makes
    [datetime(year, month, 1)] raise [ValueError] before the query is sent:
    the run writes nothing, whatever the search would return. *)
Theorem run_invalid_window (here : string) (argv : list string) int_of (ny nm : Z)
    (exists_ : bool) read search clock (records : table) (year month : Z)
    (Hload : load_records exists_ read = Ok records)
    (Hargv : (3 <= List.length argv)%nat)
    (Hy : int_of (nth 1 argv "") = Ok year) (Hm : int_of (nth 2 argv "") = Ok month)
    (Hint : (-2147483648 <= year <= 2147483647 /\ -2147483648 <= month <= 2147483647)%Z)
    (Hbad : ~ (1 <= year <= 9999 /\ 1 <= month <= 12)%Z) :
  run here argv int_of ny nm exists_ read search clock = ([], Failed ValueError).
Proof.
  unfold run, resolve_window. rewrite Hload.
  replace (3 <=? List.length argv)%nat with true by (symmetry; apply Nat.leb_le; exact Hargv).
  rewrite Hy, Hm.
  rewrite (valid_date_false year month Hbad).
  unfold date_error. rewrite (c_int_true year), (c_int_true month) by lia. reflexivity.
Qed.


Lemma run_invalid_window_witness :
  run "/srv/rsaa" argv_2024_13 int_of_2024_13 2025 1 false (fun _ => Raise (ReadError "unused"))
      (fun _ _ => Ok sample_stream) sample_clock = ([], Failed ValueError).
Proof.
  apply (run_invalid_window "/srv/rsaa" argv_2024_13 int_of_2024_13 2025 1 false
           (fun _ => Raise (ReadError "unused")) (fun _ _ => Ok sample_stream) sample_clock
           empty_records 2024 13).
  all: first [reflexivity | lia].
Defined.

(** A year or month beyond a C [int] (year 3000000000, say) makes
    [datetime(year, month, 1)] raise [OverflowError] while converting its
    arguments, before the query is sent: the run writes nothing. *)
Theorem run_window_overflow (here : string) (argv : list string) int_of (ny nm : Z)
    (exists_ : bool) read search clock (records : table) (year month : Z)
    (Hload : load_records exists_ read = Ok records)
    (Hargv : (3 <= List.length argv)%nat)
    (Hy : int_of (nth 1 argv "") = Ok year) (Hm : int_of (nth 2 argv "") = Ok month)
    (Hbig : ~ (-2147483648 <= year <= 2147483647 /\ -2147483648 <= month <= 2147483647)%Z) :
  run here argv int_of ny nm exists_ read search clock = ([], Failed OverflowError).
Proof.
  unfold run, resolve_window. rewrite Hload.
  replace (3 <=? List.length argv)%nat with true by (symmetry; apply Nat.leb_le; exact Hargv).
  rewrite Hy, Hm.
  rewrite (valid_date_false year month) by lia.
  unfold date_error.
  replace (c_int year && c_int month) with false; [reflexivity|].
  symmetry. unfold c_int.
  destruct (-2147483648 <=? year)%Z eqn:E1; destruct (year <=? 2147483647)%Z eqn:E2;
    destruct (-2147483648 <=? month)%Z eqn:E3; destruct (month <=? 2147483647)%Z eqn:E4;
    simpl; auto.
  exfalso. apply Hbig. apply Z.leb_le in E1, E2, E3, E4. lia.
Qed.

Lemma run_window_overflow_witness :
  run "/srv/rsaa" argv_3e9 int_of_3e9 2025 1 false (fun _ => Raise (ReadError "unused"))
      (fun _ _ => Ok sample_stream) sample_clock = ([], Failed OverflowError).
Proof.
  apply (run_window_overflow "/srv/rsaa" argv_3e9 int_of_3e9 2025 1 false
           (fun _ => Raise (ReadError "unused")) (fun _ _ => Ok sample_stream) sample_clock
           empty_records 3000000000 1).
  all: first [reflexivity | lia].
Defined.

Lemma sapp_assoc (a b c : string) : (a ++ b) ++ c = a ++ (b ++ c).
Proof. induction a as [|x a IH]; simpl; [reflexivity | rewrite IH; reflexivity]. Qed.

Lemma chars_app (s t : string) :
  list_ascii_of_string (s ++ t) = (list_ascii_of_string s ++ list_ascii_of_string t)%list.
Proof. induction s as [|x s IH]; simpl; [reflexivity | rewrite IH; reflexivity]. Qed.

Lemma string_of_list_app (l1 l2 : list ascii) :
  string_of_list_ascii (l1 ++ l2) = string_of_list_ascii l1 ++ string_of_list_ascii l2.
Proof. induction l1 as [|x l IH]; simpl; [reflexivity | rewrite IH; reflexivity]. Qed.

Lemma no_space_app (s t : string) : no_space (s ++ t) = no_space s && no_space t.
Proof. unfold no_space. rewrite chars_app, forallb_app. reflexivity. Qed.

Lemma no_space_uint (d : Decimal.uint) : no_space (NilEmpty.string_of_uint d) = true.
Proof. induction d; simpl; auto. Qed.

Lemma no_space_str_int (z : Z) : no_space (str_int z) = true.
Proof.
  unfold str_int. destruct (Z.to_int z) as [d|d]; simpl; apply no_space_uint.
Qed.

Lemma no_space_fmt02d (z : Z) : no_space (fmt02d z) = true.
Proof. unfold fmt02d. destruct (_ && _)%bool; [|apply no_space_str_int]. apply no_space_str_int. Qed.

Lemma ws_collapse_no_space (s t : string) :
  no_space s = true -> ws_collapse [] (s ++ t) = s ++ ws_collapse [] t.
Proof.
  induction s as [|c s IH]; intros H; [reflexivity|].
  unfold no_space in H. simpl in H. apply andb_true_iff in H as [Hc Hs].
  apply negb_true_iff in Hc. simpl. rewrite Hc. simpl. rewrite IH by exact Hs. reflexivity.
Qed.

Lemma ws_collapse_app (run : list ascii) (s0 : string) (c : ascii) (t : string) :
  Py.is_space c = false ->
  ws_collapse run (s0 ++ String c t) = ws_collapse run (s0 ++ String c EmptyString) ++ ws_collapse [] t.
Proof.
  revert run. induction s0 as [|x s0 IH]; intros run Hc; simpl.
  - rewrite Hc. rewrite sapp_assoc. reflexivity.
  - destruct (Py.is_space x); [apply IH; exact Hc|].
    rewrite IH by exact Hc. rewrite sapp_assoc. reflexivity.
Qed.

Lemma lstrip_ws_prefix (l : list ascii) (c : ascii) (r : list ascii) :
  Forall (fun x => Py.is_space x = true) l -> Py.is_space c = false ->
  Py.lstrip (string_of_list_ascii (l ++ c :: r)) = string_of_list_ascii (c :: r).
Proof.
  intros Hl Hc. induction Hl as [|x l Hx Hl IH]; simpl.
  - rewrite Hc. reflexivity.
  - rewrite Hx. exact IH.
Qed.

Lemma rstrip_trailing (s0 : string) (c : ascii) (t : string) :
  Py.is_space c = false -> Forall (fun x => Py.is_space x = true) (list_ascii_of_string t) ->
  Py.rstrip (s0 ++ String c t) = s0 ++ String c EmptyString.
Proof.
  intros Hc Ht. unfold Py.rstrip. rewrite chars_app. simpl.
  rewrite rev_app_distr. simpl. rewrite <- app_assoc. simpl.
  rewrite lstrip_ws_prefix by (auto; apply Forall_rev; exact Ht).
  rewrite list_ascii_of_string_of_list_ascii. simpl.
  rewrite rev_involutive, string_of_list_app, string_of_list_ascii_of_string. reflexivity.
Qed.

(** The query sent to ADS for the window [(year, month)]: the template's
    line breaks and indentation collapse to single spaces and the ends are
    stripped, so it is the one-line query below; the month is zero-padded
    to two digits, [year % 100] is not (2005-01 gives [identifier:"501.*"]). *)
Theorem query_text (year month : Z) :
  query year month =
  ADS_QUERY ++ " AND ( (property:refereed AND pubdate:" ++ str_int year ++ "-" ++ fmt02d month
  ++ ") OR identifier:" ++ dq ++ str_int (year mod 100) ++ fmt02d month ++ ".*" ++ dq ++ " )".
Proof.
  unfold query, re_sub_ws.
  set (Y := str_int year). set (M := fmt02d month). set (YY := str_int (year mod 100)).
  assert (HY : no_space Y = true) by apply no_space_str_int.
  assert (HM : no_space M = true) by apply no_space_fmt02d.
  assert (HYY : no_space YY = true) by apply no_space_str_int.
  change (raw_query year month) with
    ((nl ++ "    " ++ ADS_QUERY ++ nl ++ "    AND (" ++ nl ++
      "            (property:refereed AND pubdate")
     ++ String ":" (Y ++ "-" ++ M ++
     ((")" ++ nl ++ "        OR  identifier:") ++ String (ascii_of_nat 34) (YY ++ M ++
     ".*" ++ dq ++ nl ++ "        )" ++ nl ++ "    ")))).
  rewrite ws_collapse_app by reflexivity.
  rewrite (ws_collapse_no_space Y) by exact HY.
  rewrite (ws_collapse_no_space "-") by reflexivity.
  rewrite (ws_collapse_no_space M) by exact HM.
  rewrite (ws_collapse_app [] (")" ++ nl ++ "        OR  identifier:")) by reflexivity.
  rewrite (ws_collapse_no_space YY) by exact HYY.
  rewrite (ws_collapse_no_space M) by exact HM.
  clearbody Y M YY.
  set (s0 := ADS_QUERY ++ " AND ( (property:refereed AND pubdate:" ++ Y ++ "-" ++ M
             ++ ") OR identifier:" ++ dq ++ YY ++ M ++ ".*" ++ dq ++ " ").
  unfold Py.strip.
  match goal with |- Py.rstrip (Py.lstrip ?X) = _ =>
    replace (Py.lstrip X) with (s0 ++ String ")" " ")
      by (unfold s0, ADS_QUERY, dq; rewrite !sapp_assoc; reflexivity) end.
  rewrite rstrip_trailing; [|reflexivity|repeat constructor].
  unfold s0. rewrite !sapp_assoc. reflexivity.
Qed.

(** ** Normalised sub-affiliations *)

Lemma replace_char_chars (c : ascii) (f : nat) (s : string) (x : ascii) :
  (String.length s <= f)%nat ->
  In x (list_ascii_of_string (Py.replace_fuel f (String c EmptyString) EmptyString s)) ->
  x <> c /\ In x (list_ascii_of_string s).
Proof.
  revert s. induction f as [|f IH]; intros s Hlen Hx.
  - destruct s; [destruct Hx | simpl in Hlen; lia].
  - destruct s as [|d r]; [destruct Hx|]. simpl in Hlen, Hx.
    destruct (ascii_dec c d) as [<-|Hne]; simpl in Hx.
    + replace (prefix "" r) with true in Hx by (destruct r; reflexivity).
      destruct (IH r ltac:(lia) Hx) as [H1 H2]. split; [exact H1 | right; exact H2].
    + destruct Hx as [<-|Hx]; [split; [congruence | left; reflexivity]|].
      destruct (IH r ltac:(lia) Hx) as [H1 H2]. split; [exact H1 | right; exact H2].
Qed.

Lemma replace_char (c : ascii) (s : string) (x : ascii) :
  In x (list_ascii_of_string (Py.replace (String c EmptyString) EmptyString s)) ->
  x <> c /\ In x (list_ascii_of_string s).
Proof. apply replace_char_chars. lia. Qed.

Lemma lower_chars (s : string) (x : ascii) :
  In x (list_ascii_of_string (Py.lower s)) ->
  exists y, In y (list_ascii_of_string s) /\ x = Py.lower_char y.
Proof.
  induction s as [|c s IH]; simpl; [intros []|].
  intros [<-|Hx]; [exists c; auto|].
  destruct (IH Hx) as (y & Hy & ->). exists y. auto.
Qed.

Lemma lstrip_chars (s : string) (x : ascii) :
  In x (list_ascii_of_string (Py.lstrip s)) -> In x (list_ascii_of_string s).
Proof.
  induction s as [|c s IH]; simpl; [auto|].
  destruct (Py.is_space c); simpl; auto.
Qed.

Lemma strip_chars (s : string) (x : ascii) :
  In x (list_ascii_of_string (Py.strip s)) -> In x (list_ascii_of_string s).
Proof.
  unfold Py.strip, Py.rstrip. intros H.
  rewrite list_ascii_of_string_of_list_ascii, <- in_rev in H.
  apply lstrip_chars in H.
  rewrite list_ascii_of_string_of_list_ascii, <- in_rev in H.
  apply lstrip_chars. exact H.
Qed.

Lemma split_char_cons (sep : ascii) (s : string) :
  exists h t, Py.split_char sep s = h :: t.
Proof.
  induction s as [|c s IH]; simpl; [eauto|].
  destruct IH as (h & t & ->). destruct (Ascii.eqb c sep); eauto.
Qed.

Lemma split_char_pieces (sep : ascii) (s p : string) :
  In p (Py.split_char sep s) -> ~ In sep (list_ascii_of_string p).
Proof.
  revert p. induction s as [|c s IH]; intros p; simpl.
  - intros [<-|[]]. intros [].
  - destruct (Ascii.eqb c sep) eqn:E.
    + intros [<-|Hp]; [intros []|apply IH; exact Hp].
    + destruct (Py.split_char sep s) as [|h t] eqn:Es.
      * intros [<-|[]]. simpl. intros [Hc|[]]. subst. rewrite Ascii.eqb_refl in E. discriminate.
      * intros [<-|Hp].
        -- simpl. intros [Hc|Hh]; [subst; rewrite Ascii.eqb_refl in E; discriminate|].
           apply (IH h); [left; reflexivity | exact Hh].
        -- apply IH. right. exact Hp.
Qed.

Lemma split_char_length (sep : ascii) (s : string) :
  List.length (Py.split_char sep s) = S (count_occ ascii_dec (list_ascii_of_string s) sep).
Proof.
  induction s as [|c s IH]; simpl; [reflexivity|].
  destruct (Ascii.eqb c sep) eqn:E.
  - apply Ascii.eqb_eq in E. subst. destruct (ascii_dec sep sep); [|congruence].
    simpl. rewrite IH. reflexivity.
  - apply Ascii.eqb_neq in E. destruct (ascii_dec c sep); [congruence|].
    destruct (split_char_cons sep s) as (h & t & Es). rewrite Es in *. simpl in *. exact IH.
Qed.

Lemma lower_char_cases (y : ascii) :
  (Py.lower_char y = y /\ ~ (65 <= nat_of_ascii y <= 90)%nat) \/
  (97 <= nat_of_ascii (Py.lower_char y) <= 122)%nat \/
  (224 <= nat_of_ascii (Py.lower_char y) <= 254)%nat.
Proof.
  destruct y as [[] [] [] [] [] [] [] []]; vm_compute;
    first [left; split; [reflexivity | lia] | right; left; lia | right; right; lia].
Qed.

(** Every sub-affiliation [strip_affiliations] returns is normalised: it
    holds no comma, colon or semicolon and no upper-case ASCII letter; and
    there is one more sub-affiliation than there are semicolons once
    [&amp;] has been replaced (so the list is never empty, and the
    semicolon of [&amp;] does not split). *)
Theorem strip_affiliations_normal (aff : string) :
  List.length (strip_affiliations aff) =
    S (count_occ ascii_dec (list_ascii_of_string (Py.replace "&amp;" "&" aff)) ";"%char) /\
  Forall (fun sa => forall x, In x (list_ascii_of_string sa) ->
            x <> ","%char /\ x <> ":"%char /\ x <> ";"%char /\
            ~ (65 <= nat_of_ascii x <= 90)%nat)
         (strip_affiliations aff).
Proof.
  unfold strip_affiliations. split.
  - rewrite length_map. apply split_char_length.
  - apply Forall_forall. intros sa Hsa x Hx.
    apply in_map_iff in Hsa. destruct Hsa as (p & <- & Hp).
    apply strip_chars, lower_chars in Hx. destruct Hx as (y & Hy & ->).
    apply replace_char in Hy. destruct Hy as [Hcolon Hy].
    apply replace_char in Hy. destruct Hy as [Hcomma Hy].
    assert (Hsemi : y <> ";"%char)
      by (intros ->; exact (split_char_pieces _ _ _ Hp Hy)).
    destruct (lower_char_cases y) as [[-> Hup]|Hlow]; [auto|].
    repeat split; try (intros E; rewrite E in Hlow; vm_compute in Hlow; lia); lia.
Qed.

(** ** Rendering and output paths *)

Lemma render_from_cases (c : nat) (xs : list (article * list author_match)) :
  match render_from c xs with
  | Ok lines => List.length lines = List.length xs /\
                Forall (fun x => title (fst x) <> [] /\ page (fst x) <> Some []) xs
  | Raise e => e = IndexError /\
               Exists (fun x => title (fst x) = [] \/ page (fst x) = Some []) xs
  end.
Proof.
  revert c. induction xs as [|[a ma] xs IH]; intros c; simpl; [auto|].
  unfold formatted_summary, formatted_summary_n.
  destruct (page a) as [[|[p0|] ps]|] eqn:Hp; simpl.
  all: try (split; [reflexivity | left; right; exact Hp]).
  all: unfold render_line; simpl; destruct (title a) as [|t0 ts] eqn:Ht;
       [split; [reflexivity | left; left; exact Ht]|].
  all: specialize (IH (S c)); destruct (render_from (S c) xs) as [lines|e];
       destruct IH as [IH1 IH2].
  all: try (split; [simpl; rewrite IH1; reflexivity|];
            constructor; [split; simpl; [rewrite Ht; discriminate | rewrite Hp; discriminate] | exact IH2]).
  all: split; [exact IH1 | right; exact IH2].
Qed.

(** Rendering the digest fails exactly when some article has no title
    ([article.title[0]]) or an empty page list ([article.page[0]]), and
    then with [IndexError]; otherwise it yields one line per article. *)
Theorem render_from_result (c : nat) (xs : list (article * list author_match)) :
  match render_from c xs with
  | Ok lines => List.length lines = List.length xs /\
                Forall (fun x => title (fst x) <> [] /\ page (fst x) <> Some []) xs
  | Raise e => e = IndexError /\
               Exists (fun x => title (fst x) = [] \/ page (fst x) = Some []) xs
  end.
Proof. apply render_from_cases. Qed.

Lemma str_int_chars (z : Z) (x : ascii) :
  In x (list_ascii_of_string (str_int z)) ->
  In x ["0"; "1"; "2"; "3"; "4"; "5"; "6"; "7"; "8"; "9"; "-"]%char.
Proof.
  unfold str_int.
  assert (U : forall d, In x (list_ascii_of_string (NilEmpty.string_of_uint d)) ->
                        In x ["0"; "1"; "2"; "3"; "4"; "5"; "6"; "7"; "8"; "9"; "-"]%char).
  { induction d; simpl; intros H; try contradiction;
      destruct H as [<-|H]; auto; simpl; tauto. }
  destruct (Z.to_int z) as [d|d]; simpl; [exact (U d)|].
  intros [<-|H]; [simpl; tauto | exact (U d H)].
Qed.

Lemma str_int_inj (z1 z2 : Z) : str_int z1 = str_int z2 -> z1 = z2.
Proof.
  unfold str_int. intros H.
  assert (E : Some (Z.to_int z1) = Some (Z.to_int z2))
    by (rewrite <- (NilEmpty.isi (Z.to_int z1)), <- (NilEmpty.isi (Z.to_int z2)), H; reflexivity).
  injection E as E. rewrite <- (DecimalZ.of_to z1), <- (DecimalZ.of_to z2), E. reflexivity.
Qed.

Lemma app_at_char (c : ascii) (s1 s2 t1 t2 : string) :
  ~ In c (list_ascii_of_string s1) -> ~ In c (list_ascii_of_string s2) ->
  s1 ++ String c t1 = s2 ++ String c t2 -> s1 = s2 /\ t1 = t2.
Proof.
  revert s2. induction s1 as [|x s1 IH]; intros [|y s2] H1 H2 E; simpl in *.
  - injection E as ->. auto.
  - injection E as <- _. tauto.
  - injection E as -> _. tauto.
  - injection E as <- E. destruct (IH s2) as [-> ->]; auto.
Qed.

(** Each window has its own digest file: two windows with the same
    [summary_path] are the same window, so a run never overwrites the
    digest of another month. *)
Theorem summary_path_inj (here : string) (y m y' m' : Z) :
  summary_path here y m = summary_path here y' m' -> y = y' /\ m = m'.
Proof.
  unfold summary_path. intros E. apply string_app_cancel_l in E.
  change ("/lunations/RSAA_Papers_" ++ str_int y ++ "_" ++ str_int m ++ ".txt")
    with ("/lunations/RSAA_Papers_" ++ (str_int y ++ "_" ++ str_int m ++ ".txt")) in E.
  apply string_app_cancel_l in E.
  assert (Nu : forall z, ~ In "_"%char (list_ascii_of_string (str_int z)))
    by (intros z H; apply str_int_chars in H; simpl in H; intuition discriminate).
  assert (Nd : forall z, ~ In "."%char (list_ascii_of_string (str_int z)))
    by (intros z H; apply str_int_chars in H; simpl in H; intuition discriminate).
  apply app_at_char in E; [|apply Nu|apply Nu]. destruct E as [Ey E].
  apply app_at_char in E; [|apply Nd|apply Nd]. destruct E as [Em _].
  split; apply str_int_inj; assumption.
Qed.

Lemma summary_path_inj_witness :
  summary_path "/srv/rsaa" 2024 1 <> summary_path "/srv/rsaa" 2024 11.
Proof.
  intros E. apply summary_path_inj in E. destruct E as [_ E]. discriminate.
Defined.

(** ** Letter case of the affiliation *)

Lemma replace_no_amp (f : nat) (s : string) :
  ~ In "&"%char (list_ascii_of_string s) -> Py.replace_fuel f "&amp;" "&" s = s.
Proof.
  revert s. induction f as [|f IH]; intros s H; [reflexivity|].
  destruct s as [|c r]; [reflexivity|]. cbn [Py.replace_fuel prefix list_ascii_of_string In] in *.
  destruct (ascii_dec "&" c) as [E|_]; [exfalso; apply H; left; exact (eq_sym E)|].
  rewrite IH by tauto. reflexivity.
Qed.

Lemma upper_char_code (c : ascii) :
  Py.upper_char c = c \/ (65 <= nat_of_ascii (Py.upper_char c) <= 90)%nat.
Proof.
  unfold Py.upper_char.
  destruct ((97 <=? nat_of_ascii c) && (nat_of_ascii c <=? 122))%nat eqn:E; [|auto].
  right. apply andb_true_iff in E as [E1 E2]. apply Nat.leb_le in E1, E2.
  rewrite nat_ascii_embedding by lia. lia.
Qed.

Lemma upper_char_other (c d : ascii) :
  ~ (65 <= nat_of_ascii d <= 90)%nat -> ~ (97 <= nat_of_ascii d <= 122)%nat ->
  (Py.upper_char c = d <-> c = d).
Proof.
  intros Hu Hl. split.
  - intros E. destruct (upper_char_code c) as [H|H]; [congruence|]. rewrite E in H. lia.
  - intros <-. unfold Py.upper_char.
    destruct ((97 <=? nat_of_ascii c) && (nat_of_ascii c <=? 122))%nat eqn:E; [|reflexivity].
    exfalso. apply andb_true_iff in E as [E1 E2]. apply Nat.leb_le in E1, E2. lia.
Qed.

Lemma lower_upper_char (c : ascii) : Py.lower_char (Py.upper_char c) = Py.lower_char c.
Proof. destruct c as [[] [] [] [] [] [] [] []]; reflexivity. Qed.

Lemma length_upper (s : string) : String.length (Py.upper s) = String.length s.
Proof. induction s as [|c s IH]; simpl; [reflexivity | rewrite IH; reflexivity]. Qed.

Lemma lower_upper (s : string) : Py.lower (Py.upper s) = Py.lower s.
Proof.
  induction s as [|c s IH]; [reflexivity|].
  change (String (Py.lower_char (Py.upper_char c)) (Py.lower (Py.upper s))
          = String (Py.lower_char c) (Py.lower s)).
  rewrite lower_upper_char, IH. reflexivity.
Qed.

Lemma replace_fuel_upper (c : ascii) (f : nat) (s : string) :
  ~ (65 <= nat_of_ascii c <= 90)%nat -> ~ (97 <= nat_of_ascii c <= 122)%nat ->
  Py.replace_fuel f (String c EmptyString) EmptyString (Py.upper s)
  = Py.upper (Py.replace_fuel f (String c EmptyString) EmptyString s).
Proof.
  intros Hu Hl. revert s. induction f as [|f IH]; intros s; [reflexivity|].
  destruct s as [|d r]; [reflexivity|].
  change (Py.upper (String d r)) with (String (Py.upper_char d) (Py.upper r)).
  simpl Py.replace_fuel.
  destruct (ascii_dec c (Py.upper_char d)) as [E1|E1]; destruct (ascii_dec c d) as [E2|E2].
  - replace (prefix "" (Py.upper r)) with true by (destruct (Py.upper r); reflexivity).
    replace (prefix "" r) with true by (destruct r; reflexivity). apply IH.
  - exfalso. apply E2. symmetry. apply (upper_char_other d c Hu Hl). auto.
  - exfalso. apply E1. subst d. symmetry. apply (upper_char_other c c Hu Hl). reflexivity.
  - rewrite IH. reflexivity.
Qed.

Lemma replace_upper (c : ascii) (s : string) :
  ~ (65 <= nat_of_ascii c <= 90)%nat -> ~ (97 <= nat_of_ascii c <= 122)%nat ->
  Py.replace (String c EmptyString) EmptyString (Py.upper s)
  = Py.upper (Py.replace (String c EmptyString) EmptyString s).
Proof.
  intros Hu Hl. unfold Py.replace. rewrite length_upper. apply replace_fuel_upper; assumption.
Qed.

Lemma split_char_upper (sep : ascii) (s : string) :
  ~ (65 <= nat_of_ascii sep <= 90)%nat -> ~ (97 <= nat_of_ascii sep <= 122)%nat ->
  Py.split_char sep (Py.upper s) = map Py.upper (Py.split_char sep s).
Proof.
  intros Hu Hl. induction s as [|c s IH]; [reflexivity|].
  change (Py.upper (String c s)) with (String (Py.upper_char c) (Py.upper s)).
  simpl. rewrite IH.
  replace (Ascii.eqb (Py.upper_char c) sep) with (Ascii.eqb c sep).
  - destruct (Ascii.eqb c sep); [reflexivity|].
    destruct (Py.split_char sep s); reflexivity.
  - destruct (Ascii.eqb c sep) eqn:E; symmetry.
    + apply Ascii.eqb_eq in E. apply Ascii.eqb_eq, upper_char_other; assumption.
    + apply Ascii.eqb_neq in E. apply Ascii.eqb_neq. rewrite upper_char_other; assumption.
Qed.

Lemma no_amp_upper (s : string) :
  ~ In "&"%char (list_ascii_of_string s) -> ~ In "&"%char (list_ascii_of_string (Py.upper s)).
Proof.
  induction s as [|c s IH]; [auto|]. intros H.
  change (list_ascii_of_string (Py.upper (String c s)))
    with (Py.upper_char c :: list_ascii_of_string (Py.upper s)).
  intros [E|E]; [|apply IH; [intros H'; apply H; right; exact H' | exact E]].
  apply H. left. apply (upper_char_other c "&"%char); [vm_compute; lia | vm_compute; lia | exact E].
Qed.

Lemma matching_loop_same_verdict (j : nat) (au x y : string) (sas : list string) :
  matching_loop j au x sas = None <-> matching_loop j au y sas = None.
Proof. rewrite !matching_loop_none. reflexivity. Qed.

(** Matching ignores the letter case of an affiliation that contains no
    ['&']: upper-casing it gives the same normalised sub-affiliations and the
    same verdict.  (With ['&'] this can fail: [&AMP;] is not unescaped
    while [&amp;] is, so its [;] splits the affiliation.) *)
Theorem matching_ignores_case (au af : string)
    (Hascii : Forall (fun c => nat_of_ascii c < 128)%nat (list_ascii_of_string af))
    (Hamp : ~ In "&"%char (list_ascii_of_string af)) :
  strip_affiliations (Py.upper af) = strip_affiliations af /\
  is_matching_author au (Py.upper af) = is_matching_author au af.
Proof.
  assert (Hs : strip_affiliations (Py.upper af) = strip_affiliations af).
  { assert (R1 : Py.replace "&amp;" "&" af = af) by (apply replace_no_amp; exact Hamp).
    assert (R2 : Py.replace "&amp;" "&" (Py.upper af) = Py.upper af)
      by (apply replace_no_amp, no_amp_upper; exact Hamp).
    unfold strip_affiliations. rewrite R1, R2.
    rewrite split_char_upper by (vm_compute; lia).
    rewrite map_map. apply map_ext. intros p.
    rewrite (replace_upper ","%char) by (vm_compute; lia).
    rewrite (replace_upper ":"%char) by (vm_compute; lia).
    rewrite lower_upper. reflexivity. }
  split; [exact Hs|].
  unfold is_matching_author, matching_author. rewrite Hs.
  destruct (matching_loop 0 au af (strip_affiliations af)) eqn:E1;
    destruct (matching_loop 0 au (Py.upper af) (strip_affiliations af)) eqn:E2; auto.
  - apply (matching_loop_same_verdict _ _ af (Py.upper af)) in E2. congruence.
  - apply (matching_loop_same_verdict _ _ af (Py.upper af)) in E1. congruence.
Qed.

Lemma matching_ignores_case_witness :
  ~ In "&"%char (list_ascii_of_string rsaa_aff) /\
  is_matching_author "Casey, A." (Py.upper rsaa_aff) = is_matching_author "Casey, A." rsaa_aff.
Proof.
  assert (Ha : Forall (fun c => nat_of_ascii c < 128)%nat (list_ascii_of_string rsaa_aff)).
  { apply Forall_forall. intros c Hc.
    assert (B : forallb (fun c => nat_of_ascii c <? 128)%nat (list_ascii_of_string rsaa_aff) = true)
      by (vm_compute; reflexivity).
    rewrite forallb_forall in B. apply Nat.ltb_lt, B, Hc. }
  assert (H : ~ In "&"%char (list_ascii_of_string rsaa_aff))
    by (vm_compute; intuition discriminate).
  split; [exact H|]. apply (matching_ignores_case "Casey, A." rsaa_aff Ha H).
Defined.
